(** * The phone-scene triggering component of mastodon-sim

    A shallow embedding of
    [src/mastodon_sim/concordia/components/triggering.py]
    (class [SceneTriggeringComponent]) and the properties its
    specification states about it. *)

From Stdlib Require Import Ascii String List.
From stdpp Require Import base option list strings gmap.

(** ** Data model *)

(** An event statement is a piece of narrative text. *)
Abbreviation Event := string (only parsing).

(** A player ([basic_agent.BasicAgent]).  The component reads [player.name]
    and calls [player.observe]; [agent_id] stands for the identity of the
    Python object, so that two roster entries that are the same object share
    one observation log. *)
Record BasicAgent : Type := {
  agent_id : nat;
  name : string
}.

(** Modelled from the spec: [apps.Phone], whose module [apps] is missing.  A
    device is associated with one actor by name and can produce a
    human-readable description of its current state; [description] is what
    [phone.description()] returns. *)
Record Phone : Type := {
  player_name : string;
  description : string
}.

(** Exceptions.  [StopIteration] is what [next] raises on an exhausted
    generator; [CollaboratorError] is any failure raised by the language
    model or by the nested episode. *)
Inductive exn : Type :=
| StopIteration
| CollaboratorError (msg : string).

(** Modelled from the spec: the gear of the shared clock
    ([game_clock.MultiIntervalClock], a class of the concordia library), a
    two-valued mode of which exactly one value is active at a time. *)
Inductive Gear : Type := Normal | Accelerated.

(** Modelled from the spec: how a nested episode ends.  It runs to
    completion and returns its ordered output, or it fails partway, after
    having produced some events internally. *)
Inductive EpisodeOutcome : Type :=
| Completed (scene_output : list Event)
| Failed (produced : list Event) (err : exn).

(** The mutable objects the component shares with the outer simulation:
    the clock ([self._clock]), the observation log of every player object
    and the shared memory ([self._memory]). *)
Record World : Type := {
  clock_gear : Gear;
  player_logs : gmap nat (list Event);
  memory : list Event
}.

Definition log_of (w : World) (player : BasicAgent) : list Event :=
  default [] (player_logs w !! agent_id player).

(** A prompt context ([interactive_document.InteractiveDocument]): the text
    entries accumulated so far. *)
Abbreviation Document := (list string) (only parsing).

(** The calls the component makes on its collaborators, in the order in
    which they happen. *)
Inductive Effect : Type :=
| Log (msg : string)
| Ask (document : Document) (question : string)
| Build (player : BasicAgent) (phone : Phone)
| GearUp
| RunEpisode (player : BasicAgent) (phone : Phone)
| GearDown
| Observe (player : BasicAgent) (event : Event)
| MemoryAdd (event : Event).

(** The component: the fields set by [__init__] that hold immutable data.
    The language model is an oracle from a prompt context and a question to
    an answer or a failure.  The clock, the memory and the players' logs are
    mutable and shared: they live in the [World]. *)
Record SceneTriggeringComponent : Type := {
  _players : list BasicAgent;
  _phones : list Phone;
  _model : Document -> string -> exn + bool
}.

(** ** Computations: state, exceptions and a trace of effects *)

Inductive Outcome (A : Type) : Type :=
| Returned (a : A)
| Raised (e : exn).
Arguments Returned {A} a.
Arguments Raised {A} e.

(** What running a computation gives: how it ended, the world it left and
    the effects it performed, each stamped with the clock gear in which it
    was performed. *)
Record Run (A : Type) : Type := mkRun {
  result : Outcome A;
  final : World;
  effects : list (Gear * Effect)
}.
Arguments mkRun {A} result final effects.
Arguments result {A} r.
Arguments final {A} r.
Arguments effects {A} r.

Definition M (A : Type) : Type := World -> Run A.

Definition ret {A} (a : A) : M A := fun w => mkRun (Returned a) w [].

Definition raise {A} (e : exn) : M A := fun w => mkRun (Raised e) w [].

(** An exception raised by the first computation skips the continuation;
    the mutations made before it stay. *)
Definition bind {A B} (m : M A) (k : A -> M B) : M B := fun w =>
  match m w with
  | mkRun (Returned a) w1 effects1 =>
      match k a w1 with
      | mkRun result2 w2 effects2 => mkRun result2 w2 (effects1 ++ effects2)
      end
  | mkRun (Raised e) w1 effects1 => mkRun (Raised e) w1 effects1
  end.

#[export] Instance M_ret : MRet M := @ret.
#[export] Instance M_bind : MBind M := fun A B k m => bind m k.

Definition emit (eff : Effect) : M unit := fun w =>
  mkRun (Returned tt) w [(clock_gear w, eff)].

(** ** The collaborators' operations *)

Definition set_gear (g : Gear) (w : World) : World :=
  {| clock_gear := g; player_logs := player_logs w; memory := memory w |}.

Definition gear_up : M unit := fun w =>
  mkRun (Returned tt) (set_gear Accelerated w) [(clock_gear w, GearUp)].

Definition gear_down : M unit := fun w =>
  mkRun (Returned tt) (set_gear Normal w) [(clock_gear w, GearDown)].

(** Modelled from the spec: [self._clock.higher_gear()] used in a [with]
    statement.  Entering the accelerated gear is a scoped operation that
    unconditionally restores the normal gear on exit, including on failure:
    the body runs in the accelerated gear, the exit runs whether the body
    returned or raised, and the body's outcome is passed on. *)
Definition higher_gear {A} (body : M A) : M A := fun w =>
  let r1 := gear_up w in
  let r2 := body (final r1) in
  let r3 := gear_down (final r2) in
  mkRun (result r2) (final r3) (effects r1 ++ effects r2 ++ effects r3).

(** Modelled from the spec: [player.observe(event)] appends the event to the
    player's private log. *)
Definition observe (player : BasicAgent) (event : Event) : M unit := fun w =>
  mkRun (Returned tt)
    {| clock_gear := clock_gear w;
       player_logs := <[agent_id player := log_of w player ++ [event]]> (player_logs w);
       memory := memory w |}
    [(clock_gear w, Observe player event)].

(** Modelled from the spec: [self._memory.add(event)] appends the event to
    the shared memory. *)
Definition memory_add (event : Event) : M unit := fun w =>
  mkRun (Returned tt)
    {| clock_gear := clock_gear w;
       player_logs := player_logs w;
       memory := memory w ++ [event] |}
    [(clock_gear w, MemoryAdd event)].

(** Modelled from the spec: [self._logger.semi_verbose(msg)], whose module
    [logging] is missing.  A progress line; it is recorded as an effect and
    touches none of the shared objects. *)
Definition semi_verbose (msg : string) : M unit := emit (Log msg).

(** Modelled from the spec: [document.statement(text)] of concordia's
    [InteractiveDocument] adds a text entry to a prompt context. *)
Definition statement (document : Document) (text : string) : Document :=
  document ++ [text].

(** Modelled from the spec: [helper_functions.filter_copy_as_statement]
    gives an isolated view of the context, with the same background; what is
    asked of the view does not reach the context it was taken from. *)
Definition filter_copy_as_statement (document : Document) : Document := document.

(** Modelled from the spec: [document.yes_no_question(question)].  The model
    answers the question in the context of the document and the answer is
    returned as it is; a failure of the model propagates.  The question and
    its answer are also written to the document asked, which no caller here
    reads again: [_is_phone_event] drops its document and
    [_get_player_from_event] asks each question of a fresh view. *)
Definition yes_no_question (self : SceneTriggeringComponent)
    (document : Document) (question : string) : M bool :=
  emit (Ask document question);;
  match _model self document question with
  | inr answer => mret answer
  | inl e => raise e
  end.

(** ** Prompt texts *)

Definition nl : string := String "010"%char EmptyString.
Definition dquote : string := String "034"%char EmptyString.

Definition phone_event_question : string :=
  "Did a player engage in or prepare/plan to engage in any activity "
  +:+ "typically associated with smartphone use during this event? Consider "
  +:+ "not only explicit mentions of phone interaction, but also actions "
  +:+ "commonly performed using mobile apps or smartphone features, as well "
  +:+ "as preparations or plans to do so. This includes, but is not limited "
  +:+ "to:"
  +:+ nl
  +:+ "- Communicating (e.g., messaging, calling, emailing)"
  +:+ nl
  +:+ "- Accessing or planning to access information (e.g., browsing the "
  +:+ "internet, checking or preparing to check social media)"
  +:+ nl
  +:+ "- Using utility apps (e.g., calendar, notes, calculator)"
  +:+ nl
  +:+ "- Navigation or location services"
  +:+ nl
  +:+ "- Taking photos or videos"
  +:+ nl
  +:+ "- Using mobile payment systems"
  +:+ nl
  +:+ "- Playing mobile games"
  +:+ nl
  +:+ "Even if a phone is not explicitly mentioned, consider whether the "
  +:+ "described actions or plans strongly imply smartphone use in modern "
  +:+ "contexts.".

Definition player_question (player : BasicAgent) : string :=
  "Does the event description indicate that "
  +:+ name player
  +:+ ", as the main subject of the event, personally and directly engaged "
  +:+ "in, planned, or prepared for any activity typically associated with "
  +:+ "smartphone use? Consider only actions where "
  +:+ name player
  +:+ " is the primary user of their own device, or is planning to be. If "
  +:+ "the event mainly describes someone else using or planning to use a "
  +:+ "phone, answer 'No'. Include both explicit mentions of phone "
  +:+ "interaction and actions commonly performed using mobile apps or "
  +:+ "smartphone features, as well as clear intentions or preparations to "
  +:+ "do so, such as:"
  +:+ nl
  +:+ "- Actively communicating or planning to communicate (e.g., messaging, "
  +:+ "calling, emailing)"
  +:+ nl
  +:+ "- Personally accessing, planning to access, or preparing to post on "
  +:+ "social media (e.g., checking own feeds, planning to post updates, "
  +:+ "preparing to share/post own "
  +:+ dquote
  +:+ "toots"
  +:+ dquote
  +:+ " on Mastodon, intending to update own status)"
  +:+ nl
  +:+ "- Using or planning to use specific social network apps on their own "
  +:+ "device (e.g., Mastodon social network app)"
  +:+ nl
  +:+ "- Reading, planning to read their own social media timeline/feed, or "
  +:+ "preparing to check their notifications"
  +:+ nl
  +:+ "- Actively accessing or planning to access information (e.g., "
  +:+ "browsing the internet)"
  +:+ nl
  +:+ "- Using or intending to use utility apps on their personal device "
  +:+ "(e.g., calendar, notes, calculator)"
  +:+ nl
  +:+ "- Using or planning to use navigation or location services on their "
  +:+ "own phone"
  +:+ nl
  +:+ "- Taking or planning to take photos or videos with their own device"
  +:+ nl
  +:+ "- Using or preparing to use mobile payment systems from their "
  +:+ "personal account"
  +:+ nl
  +:+ "- Playing or intending to play mobile games on their own device"
  +:+ nl
  +:+ "- Liking, boosting, reacting, or planning to engage with social media "
  +:+ "posts from their account"
  +:+ nl
  +:+ "- Following, unfollowing, or planning changes to their personal "
  +:+ "social media accounts"
  +:+ nl
  +:+ "Even if "
  +:+ name player
  +:+ " is not explicitly described as using a phone, consider whether their "
  +:+ "actions, plans, or preparations strongly imply personal smartphone "
  +:+ "use by "
  +:+ name player
  +:+ " in modern contexts. Do not include instances where someone else is "
  +:+ "using or planning to use a phone, even if it's on "
  +:+ name player
  +:+ "'s behalf, or where "
  +:+ name player
  +:+ " is merely present while others use or plan to use phones. Critically "
  +:+ "important: Remember, the focus should be on "
  +:+ name player
  +:+ "'s direct phone usage, planned usage, or preparations for usage as "
  +:+ "the main subject of the event. If the event primarily describes a "
  +:+ "person other than "
  +:+ name player
  +:+ "'s actions, phone usage, or plans for phone usage, answer 'No'.".

(** ** The component's methods *)

(** The document [_is_phone_event] asks its question of. *)
Definition phone_event_document (event_statement : Event) : Document :=
  statement [] ("Event: " +:+ event_statement).

Definition _is_phone_event (self : SceneTriggeringComponent)
    (event_statement : Event) : M bool :=
  let document := phone_event_document event_statement in
  yes_no_question self document phone_event_question.

(** The document [_get_player_from_event] builds before its loop. *)
Definition player_document (event_statement : Event) : Document :=
  statement []
    ("Event: " +:+ event_statement
     +:+ ". This event states that someone interacted with their phone.").

(** The loop [for player in self._players] of [_get_player_from_event],
    which returns from the method at the first player the model says yes
    to. *)
Fixpoint for_player_in (self : SceneTriggeringComponent) (document : Document)
    (players : list BasicAgent) : M (option BasicAgent) :=
  match players with
  | [] => mret None
  | player :: rest =>
      is_player_using_phone ←
        yes_no_question self (filter_copy_as_statement document)
          (player_question player);
      if is_player_using_phone : bool then mret (Some player)
      else for_player_in self document rest
  end.

Definition _get_player_from_event (self : SceneTriggeringComponent)
    (event_statement : Event) : M (option BasicAgent) :=
  let document := player_document event_statement in
  for_player_in self document (_players self).

(** [next(p for p in self._phones if p.player_name == player_name)] *)
Definition _get_phone (self : SceneTriggeringComponent)
    (player_name0 : string) : M Phone :=
  match find (fun p => String.eqb (player_name p) player_name0) (_phones self) with
  | Some p => mret p
  | None => raise StopIteration
  end.

Definition _get_player_using_phone (self : SceneTriggeringComponent)
    (event_statement : Event) : M (option BasicAgent) :=
  semi_verbose "Checking if the phone was used...";;
  is_phone_event ← _is_phone_event self event_statement;
  if negb is_phone_event then
    semi_verbose "The phone was not used.";;
    mret None
  else
    player ← _get_player_from_event self event_statement;
    match player with
    | None => semi_verbose "The phone was not used."
    | Some p => semi_verbose ("Player using the phone: " +:+ name p)
    end;;
    mret player.

(** The loop [for event in scene_output] of [_run_phone_scene]. *)
Fixpoint for_event_in (player : BasicAgent)
    (scene_output : list Event) : M unit :=
  match scene_output with
  | [] => mret tt
  | event :: rest =>
      observe player event;;
      memory_add event;;
      for_event_in player rest
  end.

(** Modelled from the spec: what [scene.build] returns, whose module [scene]
    is missing: a nested episode scoped to one player and that player's
    phone. *)
Record PhoneScene : Type := {
  scene_player : BasicAgent;
  scene_phone : Phone
}.

(** Modelled from the spec: [scene.build(player, phone, ...)] constructs the
    nested episode; constructing it runs nothing. *)
Definition build (player : BasicAgent) (phone : Phone) : M PhoneScene :=
  emit (Build player phone);;
  mret {| scene_player := player; scene_phone := phone |}.

Section Scene.

(** The runtime of the nested episode: what the episode built for a player
    and a phone does when it is run in a given world. *)
Variable episode : BasicAgent -> Phone -> World -> EpisodeOutcome.

(** Modelled from the spec: [phone_scene.run_episode()].  The nested episode
    runs to its own completion and yields an ordered sequence of events, or
    fails; it does not write the players' logs or the shared memory, which
    are mutated only by the merge loop. *)
Definition run_episode (phone_scene : PhoneScene) : M (list Event) := fun w =>
  (emit (RunEpisode (scene_player phone_scene) (scene_phone phone_scene));;
   match episode (scene_player phone_scene) (scene_phone phone_scene) w with
   | Completed scene_output => mret scene_output
   | Failed _ err => raise err
   end) w.

Definition _run_phone_scene (self : SceneTriggeringComponent)
    (player : BasicAgent) : M (list Event) :=
  phone ← _get_phone self (name player);
  phone_scene ← build player phone;
  scene_output ← higher_gear (run_episode phone_scene);
  for_event_in player scene_output;;
  mret scene_output.

Definition update_after_event (self : SceneTriggeringComponent)
    (event_statement : Event) : M unit :=
  player ← _get_player_using_phone self event_statement;
  match player with
  | Some p => _run_phone_scene self p;; mret tt
  | None => mret tt
  end.

End Scene.

Definition partial_state (self : SceneTriggeringComponent)
    (player_name0 : string) : M string :=
  phone ← _get_phone self player_name0;
  mret (description phone).

(** ** Classifying effects *)

(** Questions to the model and log lines: they touch no shared state. *)
Definition is_query (eff : Effect) : bool :=
  match eff with Log _ | Ask _ _ => true | _ => false end.

(** The two mutations of the merge. *)
Definition is_merge (eff : Effect) : bool :=
  match eff with Observe _ _ | MemoryAdd _ => true | _ => false end.

(** The question asked about one player of the roster. *)
Definition ask_player (event_statement : Event) (player : BasicAgent) : Effect :=
  Ask (player_document event_statement) (player_question player).

(** The answer of the model to the question about one player. *)
Definition answer (self : SceneTriggeringComponent) (event_statement : Event)
    (player : BasicAgent) : exn + bool :=
  _model self (player_document event_statement) (player_question player).

(** What the merge of one event does, in order. *)
Definition merge_of (player : BasicAgent) (event : Event) : list Effect :=
  [Observe player event; MemoryAdd event].

(** The log lines and the classifier's question, as effects. *)
Definition checking : Effect := Log "Checking if the phone was used...".
Definition not_used : Effect := Log "The phone was not used.".
Definition ask_phone_event (event_statement : Event) : Effect :=
  Ask (phone_event_document event_statement) phone_event_question.

(** What the scene part of a dispatch does, from a world in gear [g]. *)
Definition scene_effects (g : Gear) (player : BasicAgent) (phone : Phone)
    : list (Gear * Effect) :=
  [(g, Build player phone); (g, GearUp);
   (Accelerated, RunEpisode player phone); (Accelerated, GearDown)].

(** A run that merged nothing. *)
Definition no_merge {A} (r : Run A) (w : World) : Prop :=
  player_logs (final r) = player_logs w /\
  memory (final r) = memory w /\
  Forall (fun x => is_merge (snd x) = false) (effects r).

(** A run that merged the whole of [scene_output] for [player], in order. *)
Definition full_merge {A} (r : Run A) (w : World) (player : BasicAgent)
    (scene_output : list Event) : Prop :=
  log_of (final r) player = log_of w player ++ scene_output /\
  memory (final r) = memory w ++ scene_output /\
  List.filter is_merge (map snd (effects r)) = flat_map (merge_of player) scene_output.

(** The three shapes a dispatch can take: nothing but questions and log
    lines; a scene whose episode failed; a scene whose episode completed,
    followed by the merge of its output. *)
Inductive Dispatch (episode : BasicAgent -> Phone -> World -> EpisodeOutcome)
    (self : SceneTriggeringComponent) (event_statement : Event) (w : World)
    : Run unit -> Prop :=
| dispatch_quiet out asked :
    Forall (fun x => fst x = clock_gear w /\ is_query (snd x) = true) asked ->
    (forall player phone,
        result (_get_player_using_phone self event_statement w) = Returned (Some player) ->
        result (_get_phone self (name player) w) = Returned phone -> False) ->
    Dispatch episode self event_statement w (mkRun out w asked)
| dispatch_failed player phone part err asked :
    Forall (fun x => fst x = clock_gear w /\ is_query (snd x) = true) asked ->
    result (_get_player_using_phone self event_statement w) = Returned (Some player) ->
    result (_get_phone self (name player) w) = Returned phone ->
    episode player phone (set_gear Accelerated w) = Failed part err ->
    Dispatch episode self event_statement w
      (mkRun (Raised err) (set_gear Normal w)
         (asked ++ scene_effects (clock_gear w) player phone))
| dispatch_merged player phone scene_output asked :
    Forall (fun x => fst x = clock_gear w /\ is_query (snd x) = true) asked ->
    result (_get_player_using_phone self event_statement w) = Returned (Some player) ->
    result (_get_phone self (name player) w) = Returned phone ->
    episode player phone (set_gear Accelerated w) = Completed scene_output ->
    Dispatch episode self event_statement w
      (mkRun (Returned tt)
         (final (for_event_in player scene_output (set_gear Normal w)))
         (asked ++ scene_effects (clock_gear w) player phone
          ++ effects (for_event_in player scene_output (set_gear Normal w)))).

(** ** A small town, to run the component on *)

Definition alice : BasicAgent := {| agent_id := 1; name := "Alice" |}.
Definition bob : BasicAgent := {| agent_id := 2; name := "Bob" |}.
Definition carol : BasicAgent := {| agent_id := 3; name := "Carol" |}.

Definition alice_phone : Phone :=
  {| player_name := "Alice"; description := "Alice's phone: Mastodon is open" |}.
Definition bob_phone : Phone :=
  {| player_name := "Bob"; description := "Bob's phone: the calendar is open" |}.

(** A model that finds phone use in every event and, asked about a player,
    says yes exactly for the given users. *)
Definition says_yes_for (users : list BasicAgent) : Document -> string -> exn + bool :=
  fun _ question =>
    if String.eqb question phone_event_question then inr true
    else inr (existsb (fun p => String.eqb question (player_question p)) users).

(** A model that finds phone use nowhere. *)
Definition says_no : Document -> string -> exn + bool := fun _ _ => inr false.

Definition town (model : Document -> string -> exn + bool) : SceneTriggeringComponent :=
  {| _players := [alice; bob; carol];
     _phones := [alice_phone; bob_phone];
     _model := model |}.

Definition empty_town : SceneTriggeringComponent :=
  {| _players := []; _phones := [alice_phone; bob_phone];
     _model := says_yes_for [alice] |}.

Definition morning : World :=
  {| clock_gear := Normal;
     player_logs := {[ 1 := ["Alice woke up"] ]};
     memory := ["Alice woke up"; "Bob made coffee"] |}.

Definition coffee : Event :=
  "Alice checked her notifications while waiting for coffee".
Definition garden : Event := "Bob watered the garden".

Definition opens_app : Event := "Alice opens her messaging app".
Definition reads_messages : Event := "Alice reads two new messages".

Definition episode_completes : BasicAgent -> Phone -> World -> EpisodeOutcome :=
  fun _ _ _ => Completed [opens_app; reads_messages].

Definition episode_fails : BasicAgent -> Phone -> World -> EpisodeOutcome :=
  fun _ _ _ => Failed [opens_app] (CollaboratorError "connection lost").

(** ** Measures and conditions on a component *)

(** Questions to the model. *)
Definition is_ask (eff : Effect) : bool :=
  match eff with Ask _ _ => true | _ => false end.

(** How many questions a run asked the model. *)
Definition count_asks (effs : list (Gear * Effect)) : nat :=
  length (List.filter is_ask (map snd effs)).


(** The component constructed with another list of phones. *)
Definition with_phones (self : SceneTriggeringComponent) (phones : list Phone)
    : SceneTriggeringComponent :=
  {| _players := _players self; _phones := phones; _model := _model self |}.

(** A model that fails on the question about one player, finds phone use in
    every event and says no about everybody else. *)
Definition fails_about (player : BasicAgent) : Document -> string -> exn + bool :=
  fun _ question =>
    if String.eqb question phone_event_question then inr true
    else if String.eqb question (player_question player)
         then inl (CollaboratorError "model unavailable")
         else inr false.

(** A model that fails on every question. *)
Definition always_fails : Document -> string -> exn + bool :=
  fun _ _ => inl (CollaboratorError "model unavailable").

Definition a_second_phone_for_alice : Phone :=
  {| player_name := "Alice"; description := "Alice's old phone" |}.

Definition carol_phone : Phone :=
  {| player_name := "Carol"; description := "Carol's phone: the camera is open" |}.

(** ** Posting a message: [mastodon_ops/toot.py] *)

Module Toot.

(** What a call can raise.  [ValueError] and [OtherException] (any other
    instance of [Exception]) are what the handlers of [toot] catch;
    [NotException] is a [BaseException] that is not an [Exception], such as
    [KeyboardInterrupt], which no handler of [toot] catches.  Each carries
    the text its [str] gives. *)
Inductive PyError : Type :=
| ValueError (text : string)
| OtherException (text : string)
| NotException (text : string).

(** The client object ([mastodon.Mastodon]). *)
Record Mastodon : Type := {
  api_base_url : string;
  access_token : string
}.

(** [mastodon.access_token = access_token] *)
Definition set_access_token (mastodon : Mastodon) (token : string) : Mastodon :=
  {| api_base_url := api_base_url mastodon; access_token := token |}.

(** The calls [toot] makes, in the order in which it makes them. *)
Inductive Call : Type :=
| LoadDotenv
| Login (login_user : string)
| GetClient
| MastodonToot (mastodon : Mastodon) (message : string)
| LoggerDebug (text : string)
| LoggerInfo (text : string)
| LoggerError (text : string)
| LoggerException (text : string).

(** What [toot] calls and does not define: [login] and [get_client] of
    [mastodon_ops], and the [toot] method of the client.  Each returns or
    raises. *)
Record Services : Type := {
  login : string -> PyError + string;
  get_client : PyError + Mastodon;
  mastodon_toot : Mastodon -> string -> PyError + unit
}.

(** A computation: the calls made and how it ended. *)
Definition T (A : Type) : Type := (list Call * (PyError + A))%type.

Definition ret {A} (a : A) : T A := ([], inr a).

Definition bind {A B} (m : T A) (k : A -> T B) : T B :=
  match m with
  | (calls1, inr a) =>
      match k a with
      | (calls2, r) => (calls1 ++ calls2, r)
      end
  | (calls1, inl e) => (calls1, inl e)
  end.

#[export] Instance T_ret : MRet T := @ret.
#[export] Instance T_bind : MBind T := fun A B k m => bind m k.

(** One call and what came of it. *)
Definition call {A} (c : Call) (r : PyError + A) : T A := ([c], r).

(** [try: body  except ...: handler]: an exception raised by the body is
    given to the handler that catches it, and passes when none does. *)
Definition try_except (body : T unit) (handler : PyError -> option (T unit)) : T unit :=
  match body with
  | (calls1, inr a) => (calls1, inr a)
  | (calls1, inl e) =>
      match handler e with
      | Some (calls2, r) => (calls1 ++ calls2, r)
      | None => (calls1, inl e)
      end
  end.

(** [toot].  [load_dotenv(find_dotenv())] comes before the [try]; it and the
    calls of the logger are taken to return. *)
Definition toot (services : Services) (login_user message : string) : T unit :=
  call LoadDotenv (inr tt);;
  try_except
    (access_token ← call (Login login_user) (login services login_user);
     mastodon ← call GetClient (get_client services);
     let mastodon := set_access_token mastodon access_token in
     call (LoggerDebug (login_user +:+ " attempting to post a message...")) (inr tt);;
     call (MastodonToot mastodon message) (mastodon_toot services mastodon message);;
     call (LoggerInfo (login_user +:+ " successfully posted the message.")) (inr tt))
    (fun e =>
       match e with
       | ValueError text => Some (call (LoggerError ("Error: " +:+ text)) (inr tt))
       | OtherException text =>
           Some (call (LoggerException ("An unexpected error occurred: " +:+ text))
                   (inr tt))
       | NotException _ => None
       end).

(** The calls that post. *)
Definition is_post (c : Call) : bool :=
  match c with MastodonToot _ _ => true | _ => false end.

(** The step of [toot] that fails first, if one does, and what it raises. *)
Definition first_failure (services : Services) (login_user message : string)
    : option PyError :=
  match login services login_user with
  | inl e => Some e
  | inr token =>
      match get_client services with
      | inl e => Some e
      | inr mastodon =>
          match mastodon_toot services (set_access_token mastodon token) message with
          | inl e => Some e
          | inr _ => None
          end
      end
  end.

(** Services to run [toot] on. *)
Definition a_client : Mastodon :=
  {| api_base_url := "https://mastodon.genexergy.org"; access_token := EmptyString |}.

Definition working : Services :=
  {| login := fun user => inr ("token of " +:+ user);
     get_client := inr a_client;
     mastodon_toot := fun _ _ => inr tt |}.

Definition unknown_user : Services :=
  {| login := fun user => inl (ValueError ("no such user: " +:+ user));
     get_client := inr a_client;
     mastodon_toot := fun _ _ => inr tt |}.

Definition server_down : Services :=
  {| login := fun user => inr ("token of " +:+ user);
     get_client := inr a_client;
     mastodon_toot := fun _ _ => inl (OtherException "connection refused") |}.

End Toot.

(** * Properties *)

(** ** Running the building blocks *)

Ltac unfold_monad :=
  unfold mbind, M_bind, mret, M_ret, bind, ret, raise, emit; cbn.

Lemma run_bind {A B} (m : M A) (k : A -> M B) (w : World) :
  (m ≫= k) w =
  match result (m w) with
  | Returned a =>
      mkRun (result (k a (final (m w)))) (final (k a (final (m w))))
        (effects (m w) ++ effects (k a (final (m w))))
  | Raised e => mkRun (Raised e) (final (m w)) (effects (m w))
  end.
Proof.
  unfold mbind, M_bind, bind.
  destruct (m w) as [[a|e] w1 effects1]; cbn; [|reflexivity].
  destruct (k a w1); reflexivity.
Qed.

Lemma run_yes_no_question self document question w :
  yes_no_question self document question w =
  mkRun
    match _model self document question with
    | inr b => Returned b
    | inl e => Raised e
    end
    w [(clock_gear w, Ask document question)].
Proof.
  unfold yes_no_question. rewrite run_bind. cbn.
  destruct (_model self document question); reflexivity.
Qed.

Lemma run_for_player_in_cons self document player rest w :
  for_player_in self document (player :: rest) w =
  match _model self document (player_question player) with
  | inl e => mkRun (Raised e) w [(clock_gear w, Ask document (player_question player))]
  | inr true =>
      mkRun (Returned (Some player)) w
        [(clock_gear w, Ask document (player_question player))]
  | inr false =>
      let r := for_player_in self document rest w in
      mkRun (result r) (final r)
        ((clock_gear w, Ask document (player_question player)) :: effects r)
  end.
Proof.
  cbn [for_player_in]. rewrite run_bind, run_yes_no_question.
  unfold filter_copy_as_statement. cbn.
  destruct (_model self document (player_question player)) as [e|[|]]; reflexivity.
Qed.

(** The loop over the roster leaves the world as it found it and only asks
    questions. *)
Lemma for_player_in_quiet self document players w :
  final (for_player_in self document players w) = w /\
  Forall (fun x => fst x = clock_gear w /\ is_query (snd x) = true)
    (effects (for_player_in self document players w)).
Proof.
  induction players as [|player rest IH].
  - split; [reflexivity | constructor].
  - rewrite run_for_player_in_cons.
    destruct (_model self document (player_question player)) as [e|[|]]; cbn.
    + split; [reflexivity | repeat constructor].
    + split; [reflexivity | repeat constructor].
    + destruct IH as [Hw Hq]. split; [exact Hw | constructor; [split; reflexivity | exact Hq]].
Qed.

(** Players answered with a no are passed over. *)
Lemma for_player_in_skip self document pre rest w :
  Forall (fun p => _model self document (player_question p) = inr false) pre ->
  let r := for_player_in self document (pre ++ rest) w in
  let r' := for_player_in self document rest w in
  result r = result r' /\ final r = final r' /\
  effects r =
    map (fun p => (clock_gear w, Ask document (player_question p))) pre ++ effects r'.
Proof.
  induction 1 as [|player pre Hno _ IH]; cbn zeta.
  - repeat split.
  - change ((player :: pre) ++ rest) with (player :: (pre ++ rest)).
    rewrite run_for_player_in_cons, Hno. cbn.
    destruct IH as (Hr & Hw & He). rewrite Hr, Hw, He. repeat split.
Qed.

Lemma find_phone_spec (phones : list Phone) (nm : string) :
  match find (fun p => String.eqb (player_name p) nm) phones with
  | Some ph =>
      exists l1 l2, phones = l1 ++ ph :: l2 /\ player_name ph = nm /\
        Forall (fun q => player_name q <> nm) l1
  | None => Forall (fun q => player_name q <> nm) phones
  end.
Proof.
  induction phones as [|p phones IH]; cbn.
  - constructor.
  - destruct (String.eqb_spec (player_name p) nm) as [Heq|Hne].
    + exists [], phones. repeat split; [exact Heq | constructor].
    + destruct (find _ phones) as [ph|].
      * destruct IH as (l1 & l2 & -> & Hnm & Hl1).
        exists (p :: l1), l2. repeat split; [exact Hnm | constructor; assumption].
      * constructor; assumption.
Qed.

Lemma run_for_event_in_cons player event rest w :
  for_event_in player (event :: rest) w =
  let w1 := final (memory_add event (final (observe player event w))) in
  let r := for_event_in player rest w1 in
  mkRun (result r) (final r)
    ((clock_gear w, Observe player event) :: (clock_gear w, MemoryAdd event) :: effects r).
Proof.
  cbn [for_event_in]. rewrite !run_bind. cbn.
  destruct (result (for_event_in player rest _)); reflexivity.
Qed.

(** The merge loop in closed form. *)
Lemma for_event_in_spec player events w :
  let r := for_event_in player events w in
  result r = Returned tt /\
  clock_gear (final r) = clock_gear w /\
  memory (final r) = memory w ++ events /\
  log_of (final r) player = log_of w player ++ events /\
  (forall i, i <> agent_id player -> player_logs (final r) !! i = player_logs w !! i) /\
  effects r =
    flat_map (fun e => [(clock_gear w, Observe player e); (clock_gear w, MemoryAdd e)]) events.
Proof.
  revert w. induction events as [|event rest IH]; intros w; cbn zeta.
  - cbn. rewrite !app_nil_r. repeat split.
  - rewrite run_for_event_in_cons. cbn zeta.
    set (w1 := final (memory_add event (final (observe player event w)))).
    destruct (IH w1) as (Hr & Hg & Hm & Hl & Ho & He).
    assert (Hl1 : log_of w1 player = log_of w player ++ [event]).
    { unfold log_of, w1. cbn. rewrite lookup_insert_eq. reflexivity. }
    assert (Hm1 : memory w1 = memory w ++ [event]) by reflexivity.
    assert (Hg1 : clock_gear w1 = clock_gear w) by reflexivity.
    assert (Ho1 : forall i, i <> agent_id player ->
                    player_logs w1 !! i = player_logs w !! i).
    { intros i Hi. unfold w1. cbn. apply lookup_insert_ne. congruence. }
    cbn [result final effects].
    rewrite Hr, Hg, Hm, Hl, He, Hl1, Hm1, Hg1, <- !app_assoc.
    repeat split.
    intros i Hi. rewrite (Ho i Hi). apply Ho1, Hi.
Qed.

Lemma run_is_phone_event self event_statement w :
  _is_phone_event self event_statement w =
  mkRun
    match _model self (phone_event_document event_statement) phone_event_question with
    | inr b => Returned b
    | inl e => Raised e
    end
    w [(clock_gear w, ask_phone_event event_statement)].
Proof. unfold _is_phone_event. apply run_yes_no_question. Qed.

Lemma get_player_from_event_quiet self event_statement w :
  final (_get_player_from_event self event_statement w) = w /\
  Forall (fun x => fst x = clock_gear w /\ is_query (snd x) = true)
    (effects (_get_player_from_event self event_statement w)).
Proof. apply for_player_in_quiet. Qed.

(** [_get_player_using_phone], path by path. *)
Lemma run_get_player_using_phone self event_statement w :
  _get_player_using_phone self event_statement w =
  let g := clock_gear w in
  let asked := [(g, checking); (g, ask_phone_event event_statement)] in
  match _model self (phone_event_document event_statement) phone_event_question with
  | inl e => mkRun (Raised e) w asked
  | inr false => mkRun (Returned None) w (asked ++ [(g, not_used)])
  | inr true =>
      let r := _get_player_from_event self event_statement w in
      match result r with
      | Raised e => mkRun (Raised e) w (asked ++ effects r)
      | Returned None => mkRun (Returned None) w (asked ++ effects r ++ [(g, not_used)])
      | Returned (Some p) =>
          mkRun (Returned (Some p)) w
            (asked ++ effects r ++ [(g, Log ("Player using the phone: " +:+ name p))])
      end
  end.
Proof.
  unfold _get_player_using_phone, semi_verbose.
  rewrite run_bind. cbn [emit result final effects].
  rewrite run_bind, run_is_phone_event. cbn [result final effects].
  destruct (_model self (phone_event_document event_statement) phone_event_question)
    as [e|[|]]; cbn [negb]; try reflexivity.
  rewrite run_bind.
  destruct (get_player_from_event_quiet self event_statement w) as [Hw _].
  destruct (result (_get_player_from_event self event_statement w)) as [[p|]|e] eqn:Hres;
    rewrite ?Hw; cbn; rewrite ?Hw; reflexivity.
Qed.

(** Up to the choice of the player nothing is mutated: the world is the one
    the call started in and every effect is a question or a log line. *)
Lemma get_player_using_phone_quiet self event_statement w :
  final (_get_player_using_phone self event_statement w) = w /\
  Forall (fun x => fst x = clock_gear w /\ is_query (snd x) = true)
    (effects (_get_player_using_phone self event_statement w)).
Proof.
  rewrite run_get_player_using_phone. cbn zeta.
  destruct (get_player_from_event_quiet self event_statement w) as [_ Hq].
  destruct (_model self (phone_event_document event_statement) phone_event_question)
    as [e|[|]].
  - split; [reflexivity | repeat constructor].
  - destruct (result (_get_player_from_event self event_statement w)) as [[p|]|e];
      (split; [reflexivity |]); cbn [effects];
      repeat (apply Forall_cons; split; [split; reflexivity |]);
      rewrite ?Forall_app; repeat split; try exact Hq; repeat constructor.
  - split; [reflexivity | repeat constructor].
Qed.

(** ** Running a dispatch *)

Section Dispatch.

Variable episode : BasicAgent -> Phone -> World -> EpisodeOutcome.
Variable self : SceneTriggeringComponent.

Lemma run_get_phone nm w :
  _get_phone self nm w =
  mkRun
    match find (fun p => String.eqb (player_name p) nm) (_phones self) with
    | Some ph => Returned ph
    | None => Raised StopIteration
    end
    w [].
Proof.
  unfold _get_phone.
  destruct (find _ (_phones self)); reflexivity.
Qed.

(** [_run_phone_scene], path by path. *)
Lemma run_run_phone_scene player w :
  _run_phone_scene episode self player w =
  match result (_get_phone self (name player) w) with
  | Raised e => mkRun (Raised e) w []
  | Returned phone =>
      let before := scene_effects (clock_gear w) player phone in
      match episode player phone (set_gear Accelerated w) with
      | Failed _ err => mkRun (Raised err) (set_gear Normal w) before
      | Completed scene_output =>
          let r := for_event_in player scene_output (set_gear Normal w) in
          mkRun (Returned scene_output) (final r) (before ++ effects r)
      end
  end.
Proof.
  unfold _run_phone_scene, _get_phone.
  destruct (find _ (_phones self)) as [phone|]; [|reflexivity].
  unfold build, higher_gear, run_episode, gear_up, gear_down. unfold_monad.
  destruct (episode player phone (set_gear Accelerated w)) as [scene_output|part err];
    cbn; [|reflexivity].
  change (set_gear Normal (set_gear Accelerated w)) with (set_gear Normal w).
  pose proof (for_event_in_spec player scene_output (set_gear Normal w)) as (Hr & _).
  destruct (for_event_in player scene_output (set_gear Normal w)) as [res wf effs].
  cbn in Hr. subst res. cbn. rewrite app_nil_r. reflexivity.
Qed.

(** [update_after_event] in terms of the two stages. *)
Lemma run_update_after_event event_statement w :
  update_after_event episode self event_statement w =
  let r0 := _get_player_using_phone self event_statement w in
  match result r0 with
  | Raised e => mkRun (Raised e) w (effects r0)
  | Returned None => mkRun (Returned tt) w (effects r0)
  | Returned (Some player) =>
      let r1 := _run_phone_scene episode self player w in
      mkRun
        match result r1 with
        | Returned _ => Returned tt
        | Raised e => Raised e
        end
        (final r1) (effects r0 ++ effects r1)
  end.
Proof.
  unfold update_after_event. rewrite run_bind.
  destruct (get_player_using_phone_quiet self event_statement w) as [Hw _].
  rewrite Hw.
  destruct (result (_get_player_using_phone self event_statement w)) as [[player|]|e].
  - rewrite run_bind.
    destruct (result (_run_phone_scene episode self player w)); cbn;
      rewrite ?app_nil_r; reflexivity.
  - cbn. rewrite app_nil_r. reflexivity.
  - reflexivity.
Qed.

Lemma update_after_event_dispatch event_statement w :
  Dispatch episode self event_statement w
    (update_after_event episode self event_statement w).
Proof.
  rewrite run_update_after_event. cbn zeta.
  destruct (get_player_using_phone_quiet self event_statement w) as [_ Hq].
  destruct (result (_get_player_using_phone self event_statement w))
    as [[player|]|e] eqn:Hsel.
  - rewrite run_run_phone_scene.
    destruct (result (_get_phone self (name player) w)) as [phone|e] eqn:Hph.
    + cbn zeta.
      destruct (episode player phone (set_gear Accelerated w))
        as [scene_output|part err] eqn:Hep; cbn [result final effects].
      * eapply dispatch_merged; eauto.
      * eapply dispatch_failed; eauto.
    + cbn [result final effects]. rewrite app_nil_r.
      apply dispatch_quiet; [exact Hq |].
      intros p ph Hp Hf. congruence.
  - apply dispatch_quiet; [exact Hq | intros; congruence].
  - apply dispatch_quiet; [exact Hq | intros; congruence].
Qed.

End Dispatch.

(** ** List facts used below *)

Lemma query_not_merge eff : is_query eff = true -> is_merge eff = false.
Proof. destruct eff; cbn; congruence. Qed.

Lemma asked_no_merge (g : Gear) (asked : list (Gear * Effect)) :
  Forall (fun x => fst x = g /\ is_query (snd x) = true) asked ->
  Forall (fun x => is_merge (snd x) = false) asked.
Proof.
  intros H. eapply Forall_impl; [exact H |].
  intros x [_ Hq]. cbn. apply query_not_merge, Hq.
Qed.

Lemma filter_none {A} (f : A -> bool) (l : list A) :
  Forall (fun x => f x = false) l -> List.filter f l = [].
Proof.
  induction 1 as [|x l Hx _ IH]; cbn; [reflexivity |].
  rewrite Hx. exact IH.
Qed.

Lemma filter_merge_effects (g : Gear) player events :
  List.filter is_merge
    (map snd (flat_map (fun e => [(g, Observe player e); (g, MemoryAdd e)]) events)) =
  flat_map (merge_of player) events.
Proof.
  induction events as [|e rest IH]; cbn; [reflexivity |].
  rewrite IH. reflexivity.
Qed.

(** Splitting a list at an element that its first part cannot hold. *)
Lemma split_after_prefix {A} (P : A -> Prop) (a b l1 l2 : list A) (x : A) :
  l1 ++ x :: l2 = a ++ b ->
  Forall (fun y => ~ P y) a -> P x ->
  exists m, l1 = a ++ m /\ b = m ++ x :: l2.
Proof.
  revert l1. induction a as [|y a IH]; intros l1 Heq Ha Hx.
  - exists l1. split; [reflexivity | symmetry; exact Heq].
  - inversion Ha as [|? ? Hy Ha']; subst.
    destruct l1 as [|z l1]; cbn in Heq.
    + injection Heq as -> _. contradiction.
    + injection Heq as -> Heq.
      destruct (IH l1 Heq Ha' Hx) as (m & -> & ->).
      exists m. split; reflexivity.
Qed.

Lemma for_player_in_none self document players w :
  result (for_player_in self document players w) = Returned None ->
  Forall (fun p => _model self document (player_question p) = inr false) players.
Proof.
  induction players as [|player rest IH]; [constructor |].
  rewrite run_for_player_in_cons.
  destruct (_model self document (player_question player)) as [e|[|]] eqn:Hans; cbn;
    try discriminate.
  intros H. constructor; [exact Hans | apply IH, H].
Qed.

Lemma map_snd_asks (g : Gear) document (players : list BasicAgent) :
  map snd (map (fun p => (g, Ask document (player_question p))) players) =
  map (fun p => Ask document (player_question p)) players.
Proof. rewrite map_map. reflexivity. Qed.

(** ** Device registry *)

(** C6: the device lookup returns only a registered device whose name equals
    the requested name exactly, the first such one in registration order; it
    returns one whenever one is registered, and when no registered device
    has that name it raises [StopIteration] instead of returning some other
    device.  The lookup changes nothing. *)
Theorem get_phone_exact_match_or_raise self nm w :
  let r := _get_phone self nm w in
  final r = w /\ effects r = [] /\
  (forall phone, result r = Returned phone ->
     In phone (_phones self) /\ player_name phone = nm /\
     exists l1 l2, _phones self = l1 ++ phone :: l2 /\
       Forall (fun q => player_name q <> nm) l1) /\
  ((exists phone, In phone (_phones self) /\ player_name phone = nm) ->
     exists phone, result r = Returned phone) /\
  ((forall phone, In phone (_phones self) -> player_name phone <> nm) ->
     result r = Raised StopIteration).
Proof.
  cbn zeta. rewrite run_get_phone. cbn [result final effects].
  pose proof (find_phone_spec (_phones self) nm) as H.
  destruct (find _ (_phones self)) as [found|].
  - destruct H as (l1 & l2 & Hl & Hnm & Hl1).
    assert (Hin : In found (_phones self)).
    { rewrite Hl. apply in_or_app. right. left. reflexivity. }
    split; [reflexivity |]. split; [reflexivity |]. split; [| split].
    + intros phone [= <-]. split; [exact Hin |]. split; [exact Hnm |].
      exists l1, l2. split; assumption.
    + intros _. exists found. reflexivity.
    + intros Hno. exfalso. exact (Hno found Hin Hnm).
  - split; [reflexivity |]. split; [reflexivity |]. split; [| split].
    + intros phone [=].
    + intros (phone & Hin & Hnm). exfalso.
      rewrite List.Forall_forall in H. exact (H phone Hin Hnm).
    + intros _. reflexivity.
Qed.

Lemma get_phone_exact_match_or_raise_witness :
  result (_get_phone (town says_no) "Bob" morning) = Returned bob_phone /\
  result (_get_phone (town says_no) "Carol" morning) = Raised StopIteration.
Proof.
  split.
  - destruct (get_phone_exact_match_or_raise (town says_no) "Bob" morning)
      as (_ & _ & _ & Hsome & _).
    destruct Hsome as [phone Hphone].
    + exists bob_phone. split; [right; left; reflexivity | reflexivity].
    + reflexivity.
  - destruct (get_phone_exact_match_or_raise (town says_no) "Carol" morning)
      as (_ & _ & _ & _ & Hnone).
    apply Hnone. intros phone [<- | [<- | []]]; discriminate.
Defined.

(** C8: [partial_state] returns the description of the registered device of
    that name when there is one and raises when there is none; either way
    the world is the one it started in and no effect is performed: no
    question to the model, no scene, no gear change, no merge. *)
Theorem partial_state_reads_description self nm w :
  let r := partial_state self nm w in
  final r = w /\ effects r = [] /\
  ((exists phone, In phone (_phones self) /\ player_name phone = nm) ->
   exists phone, In phone (_phones self) /\ player_name phone = nm /\
     result (_get_phone self nm w) = Returned phone /\
     result r = Returned (description phone)) /\
  ((forall phone, In phone (_phones self) -> player_name phone <> nm) ->
   result r = Raised StopIteration).
Proof.
  cbn zeta. unfold partial_state. rewrite run_bind, run_get_phone.
  cbn [result final effects].
  pose proof (find_phone_spec (_phones self) nm) as H.
  destruct (find _ (_phones self)) as [phone|]; cbn.
  - destruct H as (l1 & l2 & Hl & Hnm & Hl1).
    assert (Hin : In phone (_phones self)).
    { rewrite Hl. apply in_or_app. right. left. reflexivity. }
    repeat split.
    + intros _. exists phone. repeat split; assumption.
    + intros Hno. exfalso. exact (Hno phone Hin Hnm).
  - repeat split.
    intros (phone & Hin & Hnm). exfalso.
    rewrite List.Forall_forall in H. exact (H phone Hin Hnm).
Qed.

Lemma partial_state_reads_description_witness :
  result (partial_state (town says_no) "Alice" morning) =
    Returned "Alice's phone: Mastodon is open" /\
  result (partial_state (town says_no) "Carol" morning) = Raised StopIteration.
Proof.
  split.
  - destruct (partial_state_reads_description (town says_no) "Alice" morning)
      as (_ & _ & Hsome & _).
    destruct Hsome as (phone & _ & _ & Hfound & Hdescr).
    + exists alice_phone. split; [left; reflexivity | reflexivity].
    + injection Hfound as <-. exact Hdescr.
  - destruct (partial_state_reads_description (town says_no) "Carol" morning)
      as (_ & _ & _ & Hnone).
    apply Hnone. intros phone [<- | [<- | []]]; discriminate.
Defined.

(** ** Memory merger *)

(** C2: the merge loop goes through the events in production order; for
    each event it calls the player's [observe] and then adds the event to
    the shared memory, before it moves to the next event.  Afterwards the
    player's log is its former log followed by exactly these events in that
    order, and so is the shared memory; the logs of the other players and
    the clock gear are untouched. *)
Theorem merge_in_production_order player events w :
  let r := for_event_in player events w in
  result r = Returned tt /\
  map snd (effects r) = flat_map (merge_of player) events /\
  log_of (final r) player = log_of w player ++ events /\
  memory (final r) = memory w ++ events /\
  (forall other, agent_id other <> agent_id player ->
     log_of (final r) other = log_of w other) /\
  clock_gear (final r) = clock_gear w.
Proof.
  cbn zeta.
  destruct (for_event_in_spec player events w) as (Hr & Hg & Hm & Hl & Ho & He).
  repeat split; try assumption.
  - rewrite He. clear. induction events as [|e rest IH]; cbn; [reflexivity |].
    rewrite IH. reflexivity.
  - intros other Hne. unfold log_of. rewrite (Ho _ Hne). reflexivity.
Qed.

Lemma merge_in_production_order_witness :
  let r := for_event_in alice [opens_app; reads_messages] morning in
  log_of (final r) alice = ["Alice woke up"; opens_app; reads_messages] /\
  memory (final r) = ["Alice woke up"; "Bob made coffee"; opens_app; reads_messages] /\
  log_of (final r) bob = [].
Proof.
  cbn zeta.
  destruct (merge_in_production_order alice [opens_app; reads_messages] morning)
    as (_ & _ & Hlog & Hmem & Hother & _).
  split; [exact Hlog |]. split; [exact Hmem |].
  apply (Hother bob). discriminate.
Defined.

(** ** Actor resolver *)

(** C5: [_get_player_from_event] returns the first player of the roster, in
    roster order, for whom the model answers yes, and asks about no player
    after that one; when the model answers no for every player it returns
    [None].  It mutates nothing.  In particular, on a roster [A; B; C] where
    the model would answer yes for both A and B, it returns A, having asked
    about A only. *)
Theorem resolver_returns_first_match self event_statement w pre :
  Forall (fun p => answer self event_statement p = inr false) pre ->
  let r := _get_player_from_event self event_statement w in
  (_players self = pre ->
     result r = Returned None /\ final r = w /\
     map snd (effects r) = map (ask_player event_statement) pre) /\
  (forall a post, _players self = pre ++ a :: post ->
     answer self event_statement a = inr true ->
     result r = Returned (Some a) /\ final r = w /\
     map snd (effects r) = map (ask_player event_statement) (pre ++ [a])) /\
  (forall A B C, _players self = [A; B; C] ->
     answer self event_statement A = inr true ->
     answer self event_statement B = inr true ->
     result r = Returned (Some A) /\ final r = w /\
     map snd (effects r) = [ask_player event_statement A]).
Proof.
  intros Hpre. cbn zeta. unfold _get_player_from_event, answer in *.
  set (document := player_document event_statement) in *.
  split; [|split].
  - intros Hroster. rewrite Hroster, <- (app_nil_r pre) at 1 2 3.
    destruct (for_player_in_skip self document pre [] w Hpre) as (Hr & Hw & He).
    rewrite Hr, Hw, He. cbn. rewrite app_nil_r, map_snd_asks. repeat split.
  - intros a post Hroster Hyes. rewrite Hroster.
    destruct (for_player_in_skip self document pre (a :: post) w Hpre) as (Hr & Hw & He).
    rewrite Hr, Hw, He, run_for_player_in_cons, Hyes. cbn.
    rewrite map_app, map_snd_asks, map_app. repeat split.
  - intros A B C Hroster HA _. rewrite Hroster, run_for_player_in_cons, HA.
    repeat split.
Qed.

Lemma resolver_returns_first_match_witness :
  result (_get_player_from_event (town (says_yes_for [bob; carol])) coffee morning) =
    Returned (Some bob) /\
  map snd (effects (_get_player_from_event (town (says_yes_for [bob; carol])) coffee morning)) =
    [ask_player coffee alice; ask_player coffee bob] /\
  result (_get_player_from_event (town (says_yes_for [alice; bob])) coffee morning) =
    Returned (Some alice).
Proof.
  destruct (resolver_returns_first_match (town (says_yes_for [bob; carol])) coffee morning
              [alice]) as (_ & Hfirst & _).
  { constructor; [reflexivity | constructor]. }
  destruct (Hfirst bob [carol]) as (Hres & _ & Hasked); [reflexivity | reflexivity |].
  destruct (resolver_returns_first_match (town (says_yes_for [alice; bob])) coffee morning
              []) as (_ & _ & Hboth); [constructor |].
  destruct (Hboth alice bob carol) as (Hres' & _); [reflexivity | reflexivity | reflexivity |].
  split; [exact Hres |]. split; [exact Hasked | exact Hres'].
Defined.

(** ** Trigger component *)

(** C3: when the classifier answers no, [update_after_event] returns
    normally having asked that one question and written two log lines.  The
    world it leaves is the world it started in (no player log and no shared
    memory entry is added, the gear is the same), no scene is built or run,
    and no question about a player is asked. *)
Theorem not_phone_event_no_effect episode self event_statement w :
  result (_is_phone_event self event_statement w) = Returned false ->
  let r := update_after_event episode self event_statement w in
  result r = Returned tt /\ final r = w /\
  map snd (effects r) = [checking; ask_phone_event event_statement; not_used].
Proof.
  rewrite run_is_phone_event. cbn [result]. intros Hno. cbn zeta.
  rewrite run_update_after_event, run_get_player_using_phone. cbn zeta.
  destruct (_model self (phone_event_document event_statement) phone_event_question)
    as [e|[|]]; try discriminate.
  repeat split.
Qed.

Lemma not_phone_event_no_effect_witness :
  let r := update_after_event episode_completes (town says_no) garden morning in
  result r = Returned tt /\ final r = morning /\
  map snd (effects r) = [checking; ask_phone_event garden; not_used].
Proof.
  apply (not_phone_event_no_effect episode_completes (town says_no) garden morning).
  reflexivity.
Defined.

(** C4: when the classifier answers yes and the resolver finds no player,
    [update_after_event] returns normally and leaves the world it started
    in; its only effects are the classifier's question, the question about
    each player of the roster and two log lines: no scene is built or run
    and nothing is merged. *)
Theorem no_player_resolved_no_effect episode self event_statement w :
  result (_is_phone_event self event_statement w) = Returned true ->
  result (_get_player_from_event self event_statement w) = Returned None ->
  let r := update_after_event episode self event_statement w in
  result r = Returned tt /\ final r = w /\
  map snd (effects r) =
    [checking; ask_phone_event event_statement]
    ++ map (ask_player event_statement) (_players self) ++ [not_used].
Proof.
  rewrite run_is_phone_event. cbn [result]. intros Hyes Hnone. cbn zeta.
  rewrite run_update_after_event, run_get_player_using_phone. cbn zeta.
  destruct (_model self (phone_event_document event_statement) phone_event_question)
    as [e|[|]]; try discriminate.
  rewrite Hnone. cbn [result final effects]. repeat split.
  unfold _get_player_from_event in *.
  apply for_player_in_none in Hnone.
  destruct (for_player_in_skip self (player_document event_statement)
              (_players self) [] w Hnone) as (_ & _ & He).
  rewrite app_nil_r in He. rewrite He. cbn.
  rewrite app_nil_r, !map_app, map_snd_asks. reflexivity.
Qed.

Lemma no_player_resolved_no_effect_witness :
  let r := update_after_event episode_completes (town (says_yes_for [])) garden morning in
  result r = Returned tt /\ final r = morning /\
  map snd (effects r) =
    [checking; ask_phone_event garden]
    ++ map (ask_player garden) [alice; bob; carol] ++ [not_used].
Proof.
  apply (no_player_resolved_no_effect episode_completes (town (says_yes_for [])) garden
           morning); reflexivity.
Defined.

(** C9: with an empty roster the resolver asks nothing and returns [None],
    so [update_after_event] on any statement leaves the world it started in,
    with no effect other than the classifier's question and the log lines;
    whatever the classifier answers, it returns normally. *)
Theorem empty_roster_resolves_nobody episode self event_statement w :
  _players self = [] ->
  _get_player_from_event self event_statement w = mkRun (Returned None) w [] /\
  let r := update_after_event episode self event_statement w in
  final r = w /\
  map snd (effects r) =
    checking :: ask_phone_event event_statement ::
    match result (_is_phone_event self event_statement w) with
    | Returned _ => [not_used]
    | Raised _ => []
    end /\
  (forall b, result (_is_phone_event self event_statement w) = Returned b ->
     result r = Returned tt).
Proof.
  intros Hempty.
  assert (Hres : _get_player_from_event self event_statement w = mkRun (Returned None) w []).
  { unfold _get_player_from_event. rewrite Hempty. reflexivity. }
  split; [exact Hres |]. cbn zeta.
  rewrite run_update_after_event, run_get_player_using_phone, run_is_phone_event, Hres.
  cbn zeta. cbn [result final effects].
  destruct (_model self (phone_event_document event_statement) phone_event_question)
    as [e|[|]]; cbn; repeat split; intros b Hb; discriminate.
Qed.

Lemma empty_roster_resolves_nobody_witness :
  let r := update_after_event episode_completes empty_town coffee morning in
  result r = Returned tt /\ final r = morning /\
  map snd (effects r) = [checking; ask_phone_event coffee; not_used].
Proof.
  cbn zeta.
  destruct (empty_roster_resolves_nobody episode_completes empty_town coffee morning)
    as (_ & Hworld & Heffects & Hreturns); [reflexivity |].
  split; [apply (Hreturns true); reflexivity |].
  split; [exact Hworld | exact Heffects].
Defined.

(** C1: after [update_after_event], whether it returned or raised, the
    clock is in the gear it was in before the call, the normal one; a call
    that did not enter the accelerated gear leaves the gear as it was; and
    whenever the accelerated gear was entered, on whatever path the call
    ended (the nested episode completing or failing partway), the gear was
    left again and the clock is back in the normal gear. *)
Theorem gear_restored_after_dispatch episode self event_statement w :
  let r := update_after_event episode self event_statement w in
  (clock_gear w = Normal -> clock_gear (final r) = clock_gear w) /\
  (~ In GearUp (map snd (effects r)) -> clock_gear (final r) = clock_gear w) /\
  (In GearUp (map snd (effects r)) ->
     clock_gear (final r) = Normal /\ In GearDown (map snd (effects r))).
Proof.
  cbn zeta.
  pose proof (update_after_event_dispatch episode self event_statement w) as Hd.
  remember (update_after_event episode self event_statement w) as r eqn:Hr.
  clear Hr.
  assert (Hscene : forall asked player phone (tail : list (Gear * Effect)),
    In GearUp (map snd (asked ++ scene_effects (clock_gear w) player phone ++ tail)) /\
    In GearDown (map snd (asked ++ scene_effects (clock_gear w) player phone ++ tail))).
  { intros asked player phone tail. rewrite !map_app.
    split; apply in_or_app; right; apply in_or_app; left; cbn; tauto. }
  destruct Hd as [out asked Hq _ | player phone part err asked Hq _ _ _
                 | player phone scene_output asked Hq _ _ _];
    cbn [final effects].
  - split; [reflexivity |]. split; [reflexivity |]. intros Hin. exfalso.
    apply in_map_iff in Hin as ([g eff] & Heff & Hin). cbn in Heff. subst eff.
    rewrite List.Forall_forall in Hq. destruct (Hq _ Hin) as [_ Hquery]. discriminate.
  - destruct (Hscene asked player phone []) as [Hup Hdown].
    rewrite app_nil_r in Hup, Hdown.
    split; [intros ->; reflexivity |].
    split; [intros Hno; contradiction |].
    intros _. split; [reflexivity | exact Hdown].
  - destruct (for_event_in_spec player scene_output (set_gear Normal w)) as (_ & Hg & _).
    destruct (Hscene asked player phone
                (effects (for_event_in player scene_output (set_gear Normal w))))
      as [Hup Hdown].
    rewrite Hg. cbn [clock_gear set_gear].
    split; [intros ->; reflexivity |].
    split; [intros Hno; contradiction |].
    intros _. split; [reflexivity | exact Hdown].
Qed.

Lemma gear_restored_after_dispatch_witness :
  let r := update_after_event episode_fails (town (says_yes_for [alice; bob])) coffee morning in
  result r = Raised (CollaboratorError "connection lost") /\
  clock_gear (final r) = clock_gear morning /\
  clock_gear (final r) = Normal /\ In GearDown (map snd (effects r)).
Proof.
  cbn zeta.
  destruct (gear_restored_after_dispatch episode_fails
              (town (says_yes_for [alice; bob])) coffee morning) as (Hsame & _ & Hback).
  split; [reflexivity |].
  split; [apply Hsame; reflexivity |].
  apply Hback. vm_compute. do 5 right. left. reflexivity.
Defined.

(** C7: a dispatch either merges nothing (no player log and no shared
    memory entry is added, no [observe] and no memory [add] is called) or
    the nested episode has run to completion and its whole output is merged,
    in order; when the nested episode fails, [update_after_event] raises
    that failure and nothing is merged, whatever the episode had produced
    before failing. *)
Theorem merge_all_or_nothing episode self event_statement w :
  let r := update_after_event episode self event_statement w in
  (no_merge r w \/
   exists player phone scene_output,
     result (_get_player_using_phone self event_statement w) = Returned (Some player) /\
     result (_get_phone self (name player) w) = Returned phone /\
     episode player phone (set_gear Accelerated w) = Completed scene_output /\
     result r = Returned tt /\ full_merge r w player scene_output) /\
  (forall player phone part err,
     result (_get_player_using_phone self event_statement w) = Returned (Some player) ->
     result (_get_phone self (name player) w) = Returned phone ->
     episode player phone (set_gear Accelerated w) = Failed part err ->
     result r = Raised err /\ no_merge r w).
Proof.
  cbn zeta.
  pose proof (update_after_event_dispatch episode self event_statement w) as Hd.
  remember (update_after_event episode self event_statement w) as r eqn:Hr.
  clear Hr. destruct Hd as [out asked Hq Hnone | player phone part err asked Hq Hsel Hph Hep
                           | player phone scene_output asked Hq Hsel Hph Hep].
  - assert (Hquiet : no_merge (mkRun out w asked) w).
    { repeat split. eapply asked_no_merge, Hq. }
    split; [left; exact Hquiet |].
    intros p ph part err Hsel Hph _. exfalso. exact (Hnone p ph Hsel Hph).
  - assert (Hquiet : no_merge
      (mkRun (A := unit) (Raised err) (set_gear Normal w)
         (asked ++ scene_effects (clock_gear w) player phone)) w).
    { repeat split. cbn [effects]. apply Forall_app. split.
      - eapply asked_no_merge, Hq.
      - repeat constructor. }
    split; [left; exact Hquiet |].
    intros p ph part' err' Hsel' Hph' Hep'.
    rewrite Hsel in Hsel'. injection Hsel' as <-.
    rewrite Hph in Hph'. injection Hph' as <-.
    rewrite Hep in Hep'. injection Hep' as <- <-.
    split; [reflexivity | exact Hquiet].
  - split.
    + right. exists player, phone, scene_output.
      repeat split; try assumption; cbn [final effects];
        destruct (for_event_in_spec player scene_output (set_gear Normal w))
          as (_ & _ & Hm & Hl & _ & He).
      * exact Hl.
      * exact Hm.
      * rewrite He, !map_app, !List.filter_app.
        rewrite (filter_none is_merge (map snd asked)).
        -- cbn. apply filter_merge_effects.
        -- apply Forall_map. eapply asked_no_merge, Hq.
    + intros p ph part err Hsel' Hph' Hep'. exfalso.
      rewrite Hsel in Hsel'. injection Hsel' as <-.
      rewrite Hph in Hph'. injection Hph' as <-.
      rewrite Hep in Hep'. discriminate.
Qed.

Lemma merge_all_or_nothing_witness :
  let r := update_after_event episode_fails (town (says_yes_for [alice; bob])) coffee morning in
  result r = Raised (CollaboratorError "connection lost") /\ no_merge r morning.
Proof.
  cbn zeta.
  destruct (merge_all_or_nothing episode_fails (town (says_yes_for [alice; bob])) coffee
              morning) as (_ & Hfails).
  apply (Hfails alice alice_phone [opens_app]); reflexivity.
Defined.

(** C10: within a dispatch, every [observe] call and every memory [add]
    happens in the normal gear, after the accelerated gear has been left,
    and the accelerated gear is not entered again after them. *)
Theorem merge_after_gear_exit episode self event_statement w l1 g eff l2 :
  effects (update_after_event episode self event_statement w) = l1 ++ (g, eff) :: l2 ->
  is_merge eff = true ->
  g = Normal /\ In GearDown (map snd l1) /\ ~ In GearUp (map snd l2) /\
  Forall (fun x => fst x = Normal) l2.
Proof.
  pose proof (update_after_event_dispatch episode self event_statement w) as Hd.
  remember (update_after_event episode self event_statement w) as r eqn:Hr.
  clear Hr. intros Hsplit Hmerge.
  assert (Hpre : forall asked player phone,
    Forall (fun x => fst x = clock_gear w /\ is_query (snd x) = true) asked ->
    Forall (fun y : Gear * Effect => ~ is_merge (snd y) = true)
      (asked ++ scene_effects (clock_gear w) player phone)).
  { intros asked player phone Hq. apply Forall_app. split.
    - eapply Forall_impl; [exact Hq |]. intros x [_ Hx].
      cbn. rewrite (query_not_merge _ Hx). discriminate.
    - repeat constructor; cbn; discriminate. }
  destruct Hd as [out asked Hq _ | player phone part err asked Hq _ _ _
                 | player phone scene_output asked Hq _ _ _];
    cbn [effects] in Hsplit.
  - exfalso. rewrite List.Forall_forall in Hq.
    destruct (Hq (g, eff)) as [_ Hquery].
    + rewrite Hsplit. apply in_or_app. right. left. reflexivity.
    + apply query_not_merge in Hquery. cbn in Hquery. congruence.
  - exfalso. specialize (Hpre asked player phone Hq).
    rewrite List.Forall_forall in Hpre. apply (Hpre (g, eff)); [| exact Hmerge].
    rewrite Hsplit. apply in_or_app. right. left. reflexivity.
  - rewrite app_assoc in Hsplit. symmetry in Hsplit.
    destruct (split_after_prefix (fun y => is_merge (snd y) = true) _ _ _ _ _
                Hsplit (Hpre asked player phone Hq) Hmerge) as (m & -> & Hm).
    destruct (for_event_in_spec player scene_output (set_gear Normal w))
      as (_ & _ & _ & _ & _ & He).
    rewrite He in Hm. cbn [clock_gear set_gear] in Hm.
    assert (Hall : Forall (fun x => fst x = Normal /\ is_merge (snd x) = true)
                     (m ++ (g, eff) :: l2)).
    { rewrite <- Hm. clear. induction scene_output as [|e rest IH]; cbn.
      - constructor.
      - repeat (constructor; [split; reflexivity |]). exact IH. }
    apply Forall_app in Hall as [_ Hall].
    inversion Hall as [|? ? [Hg _] Hl2]; subst. cbn in Hg.
    split; [exact Hg |]. split; [| split].
    + rewrite !map_app. apply in_or_app. left. apply in_or_app. right. cbn. tauto.
    + intros Hin. apply in_map_iff in Hin as ([g' eff'] & Heff & Hin).
      cbn in Heff. subst eff'. rewrite List.Forall_forall in Hl2.
      destruct (Hl2 _ Hin) as [_ Habs]. discriminate.
    + eapply Forall_impl; [exact Hl2 |]. intros x [Hx _]. exact Hx.
Qed.

Lemma merge_after_gear_exit_witness :
  let effs :=
    effects (update_after_event episode_completes (town (says_yes_for [alice; bob]))
               coffee morning) in
  effs = take 8 effs ++ (Normal, Observe alice opens_app) :: drop 9 effs /\
  In GearDown (map snd (take 8 effs)) /\ ~ In GearUp (map snd (drop 9 effs)).
Proof.
  cbn zeta.
  assert (Hsplit :
    effects (update_after_event episode_completes (town (says_yes_for [alice; bob]))
               coffee morning) =
    take 8 (effects (update_after_event episode_completes
                       (town (says_yes_for [alice; bob])) coffee morning))
    ++ (Normal, Observe alice opens_app)
    :: drop 9 (effects (update_after_event episode_completes
                          (town (says_yes_for [alice; bob])) coffee morning))).
  { vm_compute. reflexivity. }
  destruct (merge_after_gear_exit episode_completes (town (says_yes_for [alice; bob]))
              coffee morning
              (take 8 (effects (update_after_event episode_completes
                                  (town (says_yes_for [alice; bob])) coffee morning)))
              Normal (Observe alice opens_app)
              (drop 9 (effects (update_after_event episode_completes
                                  (town (says_yes_for [alice; bob])) coffee morning)))
              Hsplit) as (_ & Hdown & Hup & _); [reflexivity |].
  split; [exact Hsplit |]. split; [exact Hdown | exact Hup].
Defined.

(** * Further properties of the component *)

(** ** What the loop over the roster can have done *)

(** The loop asked about an initial part of the roster, every player of it
    but the last answered with a no; its result tells what the last one was
    answered with. *)
Lemma for_player_in_inversion self document players w :
  match result (for_player_in self document players w) with
  | Returned (Some p) =>
      exists pre post, players = pre ++ p :: post /\
        Forall (fun q => _model self document (player_question q) = inr false) pre /\
        _model self document (player_question p) = inr true /\
        effects (for_player_in self document players w) =
          map (fun q => (clock_gear w, Ask document (player_question q))) (pre ++ [p])
  | Returned None =>
      Forall (fun q => _model self document (player_question q) = inr false) players /\
      effects (for_player_in self document players w) =
        map (fun q => (clock_gear w, Ask document (player_question q))) players
  | Raised e =>
      exists pre a post, players = pre ++ a :: post /\
        Forall (fun q => _model self document (player_question q) = inr false) pre /\
        _model self document (player_question a) = inl e /\
        effects (for_player_in self document players w) =
          map (fun q => (clock_gear w, Ask document (player_question q))) (pre ++ [a])
  end.
Proof.
  induction players as [|player rest IH].
  - cbn. split; [constructor | reflexivity].
  - rewrite run_for_player_in_cons.
    destruct (_model self document (player_question player)) as [e|[|]] eqn:Hans;
      cbn [result effects].
    + exists [], player, rest. repeat split; [constructor | exact Hans].
    + exists [], rest. repeat split; [constructor | exact Hans].
    + cbn zeta. cbn [result effects].
      destruct (result (for_player_in self document rest w)) as [[p|]|e].
      * destruct IH as (pre & post & -> & Hpre & Hp & He).
        exists (player :: pre), post. rewrite He.
        repeat split; [constructor; assumption | exact Hp].
      * destruct IH as (Hall & He). rewrite He.
        split; [constructor; assumption | reflexivity].
      * destruct IH as (pre & a & post & -> & Hpre & Ha & He).
        exists (player :: pre), a, post. rewrite He.
        repeat split; [constructor; assumption | exact Ha].
Qed.

(** X1: whatever [_get_player_from_event] returns is justified by the
    model's answers: a player it returns is in the roster, was answered with
    a yes and every player before was answered with a no; [None] means every
    player was answered with a no; a failure is the model's failure on the
    first player not answered with a no. *)
Theorem resolver_result_inversion self event_statement w :
  match result (_get_player_from_event self event_statement w) with
  | Returned (Some p) =>
      exists pre post, _players self = pre ++ p :: post /\
        Forall (fun q => answer self event_statement q = inr false) pre /\
        answer self event_statement p = inr true
  | Returned None =>
      Forall (fun q => answer self event_statement q = inr false) (_players self)
  | Raised e =>
      exists pre a post, _players self = pre ++ a :: post /\
        Forall (fun q => answer self event_statement q = inr false) pre /\
        answer self event_statement a = inl e
  end.
Proof.
  unfold _get_player_from_event, answer.
  pose proof (for_player_in_inversion self (player_document event_statement)
                (_players self) w) as H.
  destruct (result (for_player_in self (player_document event_statement)
                      (_players self) w)) as [[p|]|e].
  - destruct H as (pre & post & Hl & Hpre & Hp & _). exists pre, post. auto.
  - destruct H as (Hall & _). exact Hall.
  - destruct H as (pre & a & post & Hl & Hpre & Ha & _). exists pre, a, post. auto.
Qed.

(** ** Failures *)

(** X2: a failure of the model on the classifier's question ends the
    dispatch with that failure; the world is left as it was, no player is
    asked about and no closing log line is written. *)
Theorem classifier_failure_propagates episode self event_statement w e :
  _model self (phone_event_document event_statement) phone_event_question = inl e ->
  let r := update_after_event episode self event_statement w in
  result r = Raised e /\ final r = w /\
  map snd (effects r) = [checking; ask_phone_event event_statement].
Proof.
  intros Hfail. cbn zeta.
  rewrite run_update_after_event, run_get_player_using_phone, Hfail.
  repeat split.
Qed.

Lemma classifier_failure_propagates_witness :
  let r := update_after_event episode_completes (town always_fails) coffee morning in
  result r = Raised (CollaboratorError "model unavailable") /\ final r = morning /\
  map snd (effects r) = [checking; ask_phone_event coffee].
Proof.
  apply (classifier_failure_propagates episode_completes (town always_fails) coffee morning).
  reflexivity.
Defined.

(** X3: a failure of the model on the question about a player, after every
    player before was answered with a no, ends the dispatch with that
    failure; the world is left as it was, the players after that one are
    not asked about, and no scene is built. *)
Theorem resolver_failure_propagates episode self event_statement w pre a post e :
  _model self (phone_event_document event_statement) phone_event_question = inr true ->
  _players self = pre ++ a :: post ->
  Forall (fun p => answer self event_statement p = inr false) pre ->
  answer self event_statement a = inl e ->
  let r := update_after_event episode self event_statement w in
  result r = Raised e /\ final r = w /\
  map snd (effects r) =
    [checking; ask_phone_event event_statement]
    ++ map (ask_player event_statement) (pre ++ [a]).
Proof.
  intros Hyes Hroster Hpre Ha. cbn zeta.
  rewrite run_update_after_event, run_get_player_using_phone, Hyes. cbn zeta.
  unfold _get_player_from_event, answer in *. rewrite Hroster.
  destruct (for_player_in_skip self (player_document event_statement) pre (a :: post) w Hpre)
    as (Hr & _ & He).
  rewrite Hr, He, run_for_player_in_cons, Ha. cbn [result final effects].
  repeat split.
  cbn. rewrite !map_app, map_snd_asks. reflexivity.
Qed.

Lemma resolver_failure_propagates_witness :
  let r := update_after_event episode_completes (town (fails_about bob)) coffee morning in
  result r = Raised (CollaboratorError "model unavailable") /\ final r = morning /\
  map snd (effects r) =
    [checking; ask_phone_event coffee; ask_player coffee alice; ask_player coffee bob].
Proof.
  apply (resolver_failure_propagates episode_completes (town (fails_about bob)) coffee
           morning [alice] bob [carol]).
  - reflexivity.
  - reflexivity.
  - constructor; [reflexivity | constructor].
  - reflexivity.
Defined.

(** X4: when the chosen player has no phone registered under the player's
    name, the dispatch raises [StopIteration] right after the choice: the
    world is left as it was, the accelerated gear is not entered, no scene
    is built or run and nothing is merged. *)
Theorem missing_phone_aborts_before_scene episode self event_statement w player :
  result (_get_player_using_phone self event_statement w) = Returned (Some player) ->
  (forall phone, In phone (_phones self) -> player_name phone <> name player) ->
  let r := update_after_event episode self event_statement w in
  result r = Raised StopIteration /\ final r = w /\
  effects r = effects (_get_player_using_phone self event_statement w) /\
  Forall (fun x => is_query (snd x) = true) (effects r).
Proof.
  intros Hsel Hnone. cbn zeta.
  rewrite run_update_after_event. cbn zeta. rewrite Hsel.
  rewrite run_run_phone_scene, run_get_phone. cbn [result].
  pose proof (find_phone_spec (_phones self) (name player)) as Hfind.
  destruct (find _ (_phones self)) as [phone|].
  - exfalso. destruct Hfind as (l1 & l2 & Hl & Hnm & _).
    apply (Hnone phone); [| exact Hnm].
    rewrite Hl. apply in_or_app. right. left. reflexivity.
  - cbn [result final effects]. rewrite app_nil_r.
    repeat split.
    destruct (get_player_using_phone_quiet self event_statement w) as [_ Hq].
    eapply Forall_impl; [exact Hq |]. intros x [_ Hx]. exact Hx.
Qed.

Lemma missing_phone_aborts_before_scene_witness :
  let r := update_after_event episode_completes (town (says_yes_for [carol])) coffee morning in
  result r = Raised StopIteration /\ final r = morning.
Proof.
  cbn zeta.
  destruct (missing_phone_aborts_before_scene episode_completes
              (town (says_yes_for [carol])) coffee morning carol) as (Hr & Hw & _).
  - vm_compute. reflexivity.
  - intros phone [<- | [<- | []]]; discriminate.
  - split; assumption.
Defined.

(** ** Choosing the player *)

(** A player chosen by [_get_player_using_phone] was returned by the loop
    over the roster, after the classifier answered yes. *)
Lemma selected_player_from_resolver self event_statement w player :
  result (_get_player_using_phone self event_statement w) = Returned (Some player) ->
  _model self (phone_event_document event_statement) phone_event_question = inr true /\
  result (_get_player_from_event self event_statement w) = Returned (Some player).
Proof.
  rewrite run_get_player_using_phone. cbn zeta.
  destruct (_model self (phone_event_document event_statement) phone_event_question)
    as [e|[|]]; cbn; try discriminate.
  destruct (result (_get_player_from_event self event_statement w)) as [[p|]|e];
    cbn; try discriminate.
  intros [= ->]. split; reflexivity.
Qed.

Lemma selected_player_in_roster self event_statement w player :
  result (_get_player_using_phone self event_statement w) = Returned (Some player) ->
  In player (_players self) /\ answer self event_statement player = inr true.
Proof.
  intros Hsel. apply selected_player_from_resolver in Hsel as [_ Hres].
  unfold _get_player_from_event in Hres.
  pose proof (for_player_in_inversion self (player_document event_statement)
                (_players self) w) as H.
  rewrite Hres in H. destruct H as (pre & post & Hl & _ & Hyes & _).
  split; [| exact Hyes].
  rewrite Hl. apply in_or_app. right. left. reflexivity.
Qed.

(** X5: [_get_player_using_phone] leaves the world as it was, starts with
    the same log line, and what it does last tells how it ended: the log
    line naming the player it returns, the log line "The phone was not
    used." when it returns [None], and, when it raises, the question on
    which the model failed. *)
Theorem selection_outcome_is_logged self event_statement w :
  let r := _get_player_using_phone self event_statement w in
  final r = w /\ head (effects r) = Some (clock_gear w, checking) /\
  match result r with
  | Returned (Some p) =>
      last (effects r) = Some (clock_gear w, Log ("Player using the phone: " +:+ name p))
  | Returned None => last (effects r) = Some (clock_gear w, not_used)
  | Raised e =>
      exists document question,
        last (effects r) = Some (clock_gear w, Ask document question) /\
        _model self document question = inl e
  end.
Proof.
  cbn zeta. rewrite run_get_player_using_phone. cbn zeta.
  destruct (_model self (phone_event_document event_statement) phone_event_question)
    as [e|[|]] eqn:Hcls; cbn [result final effects].
  - split; [reflexivity |]. split; [reflexivity |].
    eexists _, _. split; [reflexivity | exact Hcls].
  - unfold _get_player_from_event.
    pose proof (for_player_in_inversion self (player_document event_statement)
                  (_players self) w) as H.
    destruct (result (for_player_in self (player_document event_statement)
                        (_players self) w)) as [[p|]|e];
      cbn [result final effects]; (split; [reflexivity |]); (split; [reflexivity |]).
    + rewrite !app_assoc. apply last_snoc.
    + rewrite !app_assoc. apply last_snoc.
    + destruct H as (pre & a & post & _ & _ & Ha & He).
      exists (player_document event_statement), (player_question a).
      split; [| exact Ha].
      rewrite He, map_app, app_assoc. cbn [map]. apply last_snoc.
  - split; [reflexivity |]. split; [reflexivity |]. reflexivity.
Qed.

(** ** How much a dispatch asks *)

Lemma count_asks_app l1 l2 : count_asks (l1 ++ l2) = count_asks l1 + count_asks l2.
Proof. unfold count_asks. rewrite map_app, List.filter_app, length_app. reflexivity. Qed.

Lemma for_player_in_asks_bound self document players w :
  count_asks (effects (for_player_in self document players w)) <= length players.
Proof.
  induction players as [|player rest IH]; [cbn; lia |].
  rewrite run_for_player_in_cons.
  destruct (_model self document (player_question player)) as [e|[|]];
    cbn [effects length]; try (cbn; lia).
  cbn zeta. cbn [effects].
  change (count_asks ((clock_gear w, Ask document (player_question player))
                        :: effects (for_player_in self document rest w)))
    with (S (count_asks (effects (for_player_in self document rest w)))).
  lia.
Qed.

Lemma merge_effects_no_asks (g : Gear) player events :
  count_asks (flat_map (fun e => [(g, Observe player e); (g, MemoryAdd e)]) events) = 0.
Proof. induction events as [|e rest IH]; [reflexivity | exact IH]. Qed.

Lemma run_phone_scene_no_asks episode self player w :
  count_asks (effects (_run_phone_scene episode self player w)) = 0.
Proof.
  rewrite run_run_phone_scene.
  destruct (result (_get_phone self (name player) w)) as [phone|e]; [| reflexivity].
  cbn zeta.
  destruct (episode player phone (set_gear Accelerated w)) as [scene_output|part err];
    [| reflexivity].
  cbn [effects]. rewrite count_asks_app.
  destruct (for_event_in_spec player scene_output (set_gear Normal w))
    as (_ & _ & _ & _ & _ & He).
  rewrite He, merge_effects_no_asks. reflexivity.
Qed.

(** X6: a dispatch asks the model at least one question, the classifier's,
    and at most one more per player of the roster. *)
Theorem question_budget episode self event_statement w :
  let r := update_after_event episode self event_statement w in
  1 <= count_asks (effects r) /\
  count_asks (effects r) <= 1 + length (_players self).
Proof.
  cbn zeta.
  assert (Hsel : 1 <= count_asks (effects (_get_player_using_phone self event_statement w))
                 /\ count_asks (effects (_get_player_using_phone self event_statement w))
                    <= 1 + length (_players self)).
  { rewrite run_get_player_using_phone. cbn zeta.
    pose proof (for_player_in_asks_bound self (player_document event_statement)
                  (_players self) w) as Hb.
    fold (_get_player_from_event self event_statement w) in Hb.
    destruct (_model self (phone_event_document event_statement) phone_event_question)
      as [e|[|]]; cbn [effects]; try (cbn; lia).
    destruct (result (_get_player_from_event self event_statement w)) as [[p|]|e];
      cbn [effects]; rewrite !count_asks_app; cbn; lia. }
  rewrite run_update_after_event. cbn zeta.
  destruct (result (_get_player_using_phone self event_statement w)) as [[player|]|e];
    cbn [effects]; try exact Hsel.
  rewrite count_asks_app, run_phone_scene_no_asks. lia.
Qed.

(** ** What a dispatch adds *)

(** X7: a dispatch only appends.  The shared memory after it is the memory
    before it followed by what was added, and the log of a player is either
    as it was or its former content followed by exactly what was added to
    the shared memory, the latter only for the player object that was
    chosen. *)
Theorem dispatch_only_appends episode self event_statement w :
  let r := update_after_event episode self event_statement w in
  exists added : list Event,
    memory (final r) = memory w ++ added /\
    forall q,
      log_of (final r) q = log_of w q \/
      (log_of (final r) q = log_of w q ++ added /\
       exists player,
         result (_get_player_using_phone self event_statement w) = Returned (Some player) /\
         agent_id q = agent_id player).
Proof.
  cbn zeta.
  pose proof (update_after_event_dispatch episode self event_statement w) as Hd.
  remember (update_after_event episode self event_statement w) as r eqn:Hr.
  clear Hr. destruct Hd as [out asked _ _ | player phone part err asked _ _ _ _
                           | player phone scene_output asked _ Hsel _ _];
    cbn [final].
  - exists []. rewrite app_nil_r. split; [reflexivity |]. intros q. left. reflexivity.
  - exists []. rewrite app_nil_r. split; [reflexivity |]. intros q. left. reflexivity.
  - exists scene_output.
    destruct (for_event_in_spec player scene_output (set_gear Normal w))
      as (_ & _ & Hm & Hl & Ho & _).
    split; [exact Hm |].
    intros q. destruct (Nat.eq_dec (agent_id q) (agent_id player)) as [Heq|Hne].
    + right. split; [| exists player; split; assumption].
      unfold log_of in *. rewrite Heq. exact Hl.
    + left. unfold log_of. rewrite (Ho _ Hne). reflexivity.
Qed.

(** ** The scene of a dispatch *)

Lemma merge_effects_all_merge (g : Gear) player events :
  Forall (fun x : Gear * Effect => is_merge (snd x) = true)
    (flat_map (fun e => [(g, Observe player e); (g, MemoryAdd e)]) events).
Proof.
  induction events as [|e rest IH]; cbn; [constructor |].
  repeat (constructor; [reflexivity |]). exact IH.
Qed.

(** X8: the nested episode is what runs inside the gear scope, and nothing
    else does: in the effects of a dispatch, the run of an episode happens
    in the accelerated gear, directly after the scene was built and the gear
    entered, in the gear of the caller, and directly before the gear is
    left; everything after that is the merge. *)
Theorem episode_runs_inside_gear_scope episode self event_statement w l1 g p ph l2 :
  effects (update_after_event episode self event_statement w)
    = l1 ++ (g, RunEpisode p ph) :: l2 ->
  g = Accelerated /\
  (exists l0, l1 = l0 ++ [(clock_gear w, Build p ph); (clock_gear w, GearUp)]) /\
  (exists l3, l2 = (Accelerated, GearDown) :: l3 /\
     Forall (fun x => is_merge (snd x) = true) l3).
Proof.
  pose proof (update_after_event_dispatch episode self event_statement w) as Hd.
  remember (update_after_event episode self event_statement w) as r eqn:Hr.
  clear Hr. intros Hsplit.
  set (P := fun y : Gear * Effect => exists p' ph', snd y = RunEpisode p' ph').
  assert (HP : P (g, RunEpisode p ph)) by (exists p, ph; reflexivity).
  assert (Hasked : forall asked,
    Forall (fun x => fst x = clock_gear w /\ is_query (snd x) = true) asked ->
    Forall (fun y => ~ P y) asked).
  { intros asked Hq. eapply Forall_impl; [exact Hq |].
    intros x [_ Hx] (p' & ph' & Hrun). rewrite Hrun in Hx. discriminate. }
  assert (Hscene : forall player phone (tail : list (Gear * Effect)) m,
    Forall (fun x => is_merge (snd x) = true) tail ->
    scene_effects (clock_gear w) player phone ++ tail = m ++ (g, RunEpisode p ph) :: l2 ->
    g = Accelerated /\
    m = [(clock_gear w, Build p ph); (clock_gear w, GearUp)] /\
    l2 = (Accelerated, GearDown) :: tail).
  { intros player phone tail m Htail Heq. unfold scene_effects in Heq. cbn in Heq.
    destruct m as [|x1 [|x2 [|x3 [|x4 m]]]]; cbn in Heq; try discriminate.
    - injection Heq as <- <- <- <- <- <-. repeat split.
    - exfalso. injection Heq as _ _ _ _ Heq.
      rewrite List.Forall_forall in Htail.
      specialize (Htail (g, RunEpisode p ph)). cbn in Htail.
      assert (Hin : In (g, RunEpisode p ph) tail).
      { rewrite Heq. apply in_or_app. right. left. reflexivity. }
      specialize (Htail Hin). discriminate. }
  destruct Hd as [out asked Hq _ | player phone part err asked Hq _ _ _
                 | player phone scene_output asked Hq _ _ _];
    cbn [effects] in Hsplit.
  - exfalso. specialize (Hasked asked Hq). rewrite List.Forall_forall in Hasked.
    apply (Hasked (g, RunEpisode p ph)); [| exact HP].
    rewrite Hsplit. apply in_or_app. right. left. reflexivity.
  - symmetry in Hsplit.
    destruct (split_after_prefix P _ _ _ _ _ Hsplit (Hasked asked Hq) HP)
      as (m & -> & Hm).
    rewrite <- (app_nil_r (scene_effects (clock_gear w) player phone)) in Hm.
    destruct (Hscene player phone [] m (List.Forall_nil _) Hm) as (Hg & -> & ->).
    split; [exact Hg |]. split; [exists asked; reflexivity |].
    exists []. split; [reflexivity | constructor].
  - symmetry in Hsplit.
    destruct (split_after_prefix P _ _ _ _ _ Hsplit (Hasked asked Hq) HP)
      as (m & -> & Hm).
    destruct (for_event_in_spec player scene_output (set_gear Normal w))
      as (_ & _ & _ & _ & _ & He).
    rewrite He in Hm.
    pose proof (merge_effects_all_merge (clock_gear (set_gear Normal w)) player
                  scene_output) as Htail.
    destruct (Hscene player phone _ m Htail Hm) as (Hg & -> & ->).
    split; [exact Hg |]. split; [exists asked; reflexivity |].
    eexists. split; [reflexivity | exact Htail].
Qed.

Lemma episode_runs_inside_gear_scope_witness :
  let effs :=
    effects (update_after_event episode_fails (town (says_yes_for [alice; bob]))
               coffee morning) in
  exists l0 l3,
    take 6 effs = l0 ++ [(Normal, Build alice alice_phone); (Normal, GearUp)] /\
    drop 7 effs = (Accelerated, GearDown) :: l3.
Proof.
  cbn zeta.
  assert (Hsplit :
    effects (update_after_event episode_fails (town (says_yes_for [alice; bob]))
               coffee morning) =
    take 6 (effects (update_after_event episode_fails
                       (town (says_yes_for [alice; bob])) coffee morning))
    ++ (Accelerated, RunEpisode alice alice_phone)
    :: drop 7 (effects (update_after_event episode_fails
                          (town (says_yes_for [alice; bob])) coffee morning))).
  { vm_compute. reflexivity. }
  destruct (episode_runs_inside_gear_scope episode_fails (town (says_yes_for [alice; bob]))
              coffee morning
              (take 6 (effects (update_after_event episode_fails
                                  (town (says_yes_for [alice; bob])) coffee morning)))
              Accelerated alice alice_phone
              (drop 7 (effects (update_after_event episode_fails
                                  (town (says_yes_for [alice; bob])) coffee morning)))
              Hsplit) as (_ & (l0 & Hl0) & (l3 & Hl3 & _)).
  exists l0, l3. split; [exact Hl0 | exact Hl3].
Defined.

(** X9: a scene is built only for a player of the roster for whom the model
    answered yes, and only with a registered phone whose name is that
    player's name; it is built in the gear the dispatch started in. *)
Theorem scene_built_for_name_matched_phone episode self event_statement w g p ph :
  In (g, Build p ph) (effects (update_after_event episode self event_statement w)) ->
  In p (_players self) /\ answer self event_statement p = inr true /\
  In ph (_phones self) /\ player_name ph = name p /\ g = clock_gear w.
Proof.
  pose proof (update_after_event_dispatch episode self event_statement w) as Hd.
  remember (update_after_event episode self event_statement w) as r eqn:Hr.
  clear Hr. intros Hin.
  assert (Hfound : forall player phone,
    result (_get_player_using_phone self event_statement w) = Returned (Some player) ->
    result (_get_phone self (name player) w) = Returned phone ->
    In player (_players self) /\ answer self event_statement player = inr true /\
    In phone (_phones self) /\ player_name phone = name player).
  { intros player phone Hsel Hph.
    destruct (selected_player_in_roster self event_statement w player Hsel) as [Hp Hyes].
    rewrite run_get_phone in Hph. cbn in Hph.
    pose proof (find_phone_spec (_phones self) (name player)) as Hfind.
    destruct (find _ (_phones self)) as [found|]; [| discriminate].
    injection Hph as ->. destruct Hfind as (l1 & l2 & Hl & Hnm & _).
    repeat split; try assumption.
    rewrite Hl. apply in_or_app. right. left. reflexivity. }
  assert (Hnot_asked : forall asked,
    Forall (fun x => fst x = clock_gear w /\ is_query (snd x) = true) asked ->
    ~ In (g, Build p ph) asked).
  { intros asked Hq Habs. rewrite List.Forall_forall in Hq.
    destruct (Hq _ Habs) as [_ Hquery]. discriminate. }
  assert (Hin_scene : forall player phone,
    In (g, Build p ph) (scene_effects (clock_gear w) player phone) ->
    g = clock_gear w /\ p = player /\ ph = phone).
  { intros player phone [Heq | [Heq | [Heq | [Heq | []]]]]; try discriminate.
    injection Heq as -> -> ->. repeat split. }
  destruct Hd as [out asked Hq _ | player phone part err asked Hq Hsel Hph _
                 | player phone scene_output asked Hq Hsel Hph _];
    cbn [effects] in Hin.
  - exfalso. exact (Hnot_asked asked Hq Hin).
  - apply in_app_or in Hin as [Hin | Hin]; [exfalso; exact (Hnot_asked asked Hq Hin) |].
    destruct (Hin_scene player phone Hin) as (-> & -> & ->).
    destruct (Hfound player phone Hsel Hph) as (H1 & H2 & H3 & H4). repeat split; assumption.
  - apply in_app_or in Hin as [Hin | Hin]; [exfalso; exact (Hnot_asked asked Hq Hin) |].
    apply in_app_or in Hin as [Hin | Hin].
    + destruct (Hin_scene player phone Hin) as (-> & -> & ->).
      destruct (Hfound player phone Hsel Hph) as (H1 & H2 & H3 & H4).
      repeat split; assumption.
    + exfalso.
      destruct (for_event_in_spec player scene_output (set_gear Normal w))
        as (_ & _ & _ & _ & _ & He).
      rewrite He in Hin.
      pose proof (merge_effects_all_merge (clock_gear (set_gear Normal w)) player
                    scene_output) as Hall.
      rewrite List.Forall_forall in Hall. specialize (Hall _ Hin). discriminate.
Qed.

Lemma scene_built_for_name_matched_phone_witness :
  In bob (_players (town (says_yes_for [bob; carol]))) /\
  In bob_phone (_phones (town (says_yes_for [bob; carol]))) /\
  player_name bob_phone = name bob.
Proof.
  destruct (scene_built_for_name_matched_phone episode_completes
              (town (says_yes_for [bob; carol])) coffee morning Normal bob bob_phone)
    as (Hp & _ & Hph & Hnm & _).
  - vm_compute. do 5 right. left. reflexivity.
  - repeat split; assumption.
Defined.

(** ** Where a failure of a dispatch comes from *)






(** ** Registering more phones *)

Lemma find_app_found {A} (f : A -> bool) (l more : list A) (x : A) :
  find f l = Some x -> find f (l ++ more) = Some x.
Proof.
  induction l as [|y l IH]; cbn; [discriminate |].
  destruct (f y); [auto | exact IH].
Qed.

(** X12: the first registration of a name wins.  A lookup that finds a
    phone finds the same phone after more phones are registered behind the
    existing ones, also under the same name; and a phone registered in front
    under another name changes no lookup of this name. *)
Theorem first_registration_wins self nm w :
  (forall phone more,
     result (_get_phone self nm w) = Returned phone ->
     result (_get_phone (with_phones self (_phones self ++ more)) nm w) = Returned phone) /\
  (forall extra,
     player_name extra <> nm ->
     result (_get_phone (with_phones self (extra :: _phones self)) nm w)
       = result (_get_phone self nm w)).
Proof.
  split.
  - intros phone more. rewrite !run_get_phone. cbn [result with_phones _phones].
    destruct (find _ (_phones self)) as [found|] eqn:Hfind; [| discriminate].
    intros [= ->]. rewrite (find_app_found _ _ more _ Hfind). reflexivity.
  - intros extra Hne. rewrite !run_get_phone. cbn [result with_phones _phones find].
    destruct (String.eqb_spec (player_name extra) nm) as [Heq|_]; [contradiction |].
    reflexivity.
Qed.

Lemma first_registration_wins_witness :
  result (_get_phone
            (with_phones (town says_no) ([alice_phone; bob_phone] ++ [a_second_phone_for_alice]))
            "Alice" morning) = Returned alice_phone /\
  result (_get_phone (with_phones (town says_no) (carol_phone :: [alice_phone; bob_phone]))
            "Alice" morning) = Returned alice_phone.
Proof.
  destruct (first_registration_wins (town says_no) "Alice" morning) as [Hbehind Hfront].
  split.
  - apply (Hbehind alice_phone [a_second_phone_for_alice]). reflexivity.
  - etransitivity; [apply (Hfront carol_phone); discriminate | reflexivity].
Defined.

(** ** A dispatch that goes through *)

(** X17: when a player is chosen, that player's phone is found and the
    nested episode completes, [_run_phone_scene] returns the output of the
    episode as it is, and the dispatch returns with the clock in the normal
    gear, the output appended to the shared memory and to the log of the
    player; its effects are those of the choice, then the scene, then the
    merge of each event of the output in order, in the normal gear. *)
Theorem dispatch_completes_and_merges episode self event_statement w player phone
    scene_output :
  result (_get_player_using_phone self event_statement w) = Returned (Some player) ->
  result (_get_phone self (name player) w) = Returned phone ->
  episode player phone (set_gear Accelerated w) = Completed scene_output ->
  let r := update_after_event episode self event_statement w in
  result (_run_phone_scene episode self player w) = Returned scene_output /\
  result r = Returned tt /\
  clock_gear (final r) = Normal /\
  memory (final r) = memory w ++ scene_output /\
  log_of (final r) player = log_of w player ++ scene_output /\
  effects r =
    effects (_get_player_using_phone self event_statement w)
    ++ scene_effects (clock_gear w) player phone
    ++ flat_map (fun e => [(Normal, Observe player e); (Normal, MemoryAdd e)])
         scene_output.
Proof.
  intros Hsel Hph Hep. cbn zeta.
  rewrite run_update_after_event. cbn zeta. rewrite Hsel.
  rewrite run_run_phone_scene, Hph. cbn zeta. rewrite Hep.
  cbn [result final effects].
  destruct (for_event_in_spec player scene_output (set_gear Normal w))
    as (_ & Hg & Hm & Hl & _ & He).
  rewrite Hg, Hm, Hl, He. repeat split.
Qed.

Lemma dispatch_completes_and_merges_witness :
  let r := update_after_event episode_completes (town (says_yes_for [bob; carol]))
             coffee morning in
  result r = Returned tt /\
  memory (final r) = ["Alice woke up"; "Bob made coffee"; opens_app; reads_messages] /\
  log_of (final r) bob = [opens_app; reads_messages].
Proof.
  cbn zeta.
  destruct (dispatch_completes_and_merges episode_completes
              (town (says_yes_for [bob; carol])) coffee morning bob bob_phone
              [opens_app; reads_messages]) as (_ & Hr & _ & Hm & Hl & _).
  - vm_compute. reflexivity.
  - reflexivity.
  - reflexivity.
  - split; [exact Hr |]. split; [exact Hm | exact Hl].
Defined.

(** * Properties of [toot] *)

(** [toot], path by path. *)
Lemma run_toot services login_user message :
  Toot.toot services login_user message =
  let debug := Toot.LoggerDebug (login_user +:+ " attempting to post a message...") in
  let info := Toot.LoggerInfo (login_user +:+ " successfully posted the message.") in
  let handled e calls :=
    match e with
    | Toot.ValueError text =>
        (calls ++ [Toot.LoggerError ("Error: " +:+ text)], inr tt)
    | Toot.OtherException text =>
        (calls ++ [Toot.LoggerException ("An unexpected error occurred: " +:+ text)],
         inr tt)
    | Toot.NotException _ => (calls, inl e)
    end in
  match Toot.login services login_user with
  | inl e => handled e [Toot.LoadDotenv; Toot.Login login_user]
  | inr token =>
      match Toot.get_client services with
      | inl e => handled e [Toot.LoadDotenv; Toot.Login login_user; Toot.GetClient]
      | inr mastodon =>
          let post := Toot.MastodonToot (Toot.set_access_token mastodon token) message in
          match Toot.mastodon_toot services (Toot.set_access_token mastodon token) message with
          | inl e =>
              handled e
                [Toot.LoadDotenv; Toot.Login login_user; Toot.GetClient; debug; post]
          | inr _ =>
              ([Toot.LoadDotenv; Toot.Login login_user; Toot.GetClient; debug; post; info],
               inr tt)
          end
      end
  end.
Proof.
  unfold Toot.toot, Toot.try_except, Toot.call.
  unfold mbind, Toot.T_bind, Toot.bind. cbn.
  destruct (Toot.login services login_user) as [[t|t|t]|token]; cbn; try reflexivity.
  destruct (Toot.get_client services) as [[t|t|t]|mastodon]; cbn; try reflexivity.
  destruct (Toot.mastodon_toot services (Toot.set_access_token mastodon token) message)
    as [[t|t|t]|[]]; cbn; reflexivity.
Qed.



(** X14: [toot] posts at most once, and when it posts, it posts the message
    it was given, through the client [get_client] returned, with the access
    token that [login] returned for this user put in place of the client's
    own. *)
Theorem toot_posts_once_with_login_token services login_user message :
  length (List.filter Toot.is_post (fst (Toot.toot services login_user message))) <= 1 /\
  (forall mastodon posted,
     In (Toot.MastodonToot mastodon posted) (fst (Toot.toot services login_user message)) ->
     posted = message /\
     exists token client,
       Toot.login services login_user = inr token /\
       Toot.get_client services = inr client /\
       mastodon = Toot.set_access_token client token).
Proof.
  rewrite run_toot. cbn zeta.
  destruct (Toot.login services login_user) as [[t|t|t]|token]; cbn.
  1-3: split; [lia |]; intros mastodon posted H;
       repeat (destruct H as [H|H]; try discriminate); contradiction.
  destruct (Toot.get_client services) as [[t|t|t]|client]; cbn.
  1-3: split; [lia |]; intros mastodon posted H;
       repeat (destruct H as [H|H]; try discriminate); contradiction.
  destruct (Toot.mastodon_toot services (Toot.set_access_token client token) message)
    as [[t|t|t]|[]]; cbn.
  all: split; [lia |]; intros mastodon posted H;
       repeat (destruct H as [H|H]; try discriminate);
       first [ contradiction
             | injection H as <- <-;
               split; [reflexivity |]; exists token, client; repeat split ].
Qed.

Lemma toot_posts_once_with_login_token_witness :
  exists token client,
    Toot.login Toot.server_down "alice" = inr token /\
    Toot.get_client Toot.server_down = inr client /\
    {| Toot.api_base_url := "https://mastodon.genexergy.org";
       Toot.access_token := "token of alice" |} = Toot.set_access_token client token.
Proof.
  destruct (toot_posts_once_with_login_token Toot.server_down "alice" "hello")
    as [_ Hposted].
  destruct (Hposted {| Toot.api_base_url := "https://mastodon.genexergy.org";
                       Toot.access_token := "token of alice" |} "hello")
    as [_ Hfrom].
  - vm_compute. do 4 right. left. reflexivity.
  - exact Hfrom.
Defined.

(** X15: the success line is logged exactly when no step failed: the login
    returned a token, the client was obtained and the post returned; and
    then the post is among the calls. *)
Theorem toot_success_logged_iff_posted services login_user message :
  In (Toot.LoggerInfo (login_user +:+ " successfully posted the message."))
     (fst (Toot.toot services login_user message))
  <-> Toot.first_failure services login_user message = None.
Proof.
  rewrite run_toot. unfold Toot.first_failure. cbn zeta.
  destruct (Toot.login services login_user) as [[t|t|t]|token]; cbn.
  1-3: split; [intros H; repeat (destruct H as [H|H]; try discriminate); destruct H
              | discriminate].
  destruct (Toot.get_client services) as [[t|t|t]|client]; cbn.
  1-3: split; [intros H; repeat (destruct H as [H|H]; try discriminate); destruct H
              | discriminate].
  destruct (Toot.mastodon_toot services (Toot.set_access_token client token) message)
    as [[t|t|t]|[]]; cbn.
  1-3: split; [intros H; repeat (destruct H as [H|H]; try discriminate); destruct H
              | discriminate].
  split; [reflexivity |]. intros _. do 5 right. left. reflexivity.
Qed.

Lemma toot_success_logged_iff_posted_witness :
  In (Toot.LoggerInfo "alice successfully posted the message.")
     (fst (Toot.toot Toot.working "alice" "hello")) /\
  ~ In (Toot.LoggerInfo "alice successfully posted the message.")
       (fst (Toot.toot Toot.server_down "alice" "hello")).
Proof.
  split.
  - apply (toot_success_logged_iff_posted Toot.working "alice" "hello"). reflexivity.
  - intros Hin.
    apply (toot_success_logged_iff_posted Toot.server_down "alice" "hello") in Hin.
    discriminate.
Defined.

(** X16: how a failure is reported depends on its class.  When the first
    step to fail raises a [ValueError], the last thing [toot] does is log
    "Error: " and its text at error level, and it returns; for any other
    [Exception] it logs "An unexpected error occurred: " and its text with
    the traceback, and returns; anything else passes through unlogged.  In
    each case nothing is called after the failing step but the logger. *)
Theorem toot_failure_reported_by_class services login_user message e :
  Toot.first_failure services login_user message = Some e ->
  let calls := fst (Toot.toot services login_user message) in
  let ended := snd (Toot.toot services login_user message) in
  match e with
  | Toot.ValueError text =>
      ended = inr tt /\ last calls = Some (Toot.LoggerError ("Error: " +:+ text))
  | Toot.OtherException text =>
      ended = inr tt /\
      last calls = Some (Toot.LoggerException ("An unexpected error occurred: " +:+ text))
  | Toot.NotException _ =>
      ended = inl e /\
      Forall (fun c => match c with
                       | Toot.LoggerError _ | Toot.LoggerException _ => False
                       | _ => True
                       end) calls
  end.
Proof.
  rewrite run_toot. unfold Toot.first_failure. cbn zeta.
  destruct (Toot.login services login_user) as [e1|token].
  { intros [= ->]. destruct e; cbn; split; try reflexivity. repeat constructor. }
  destruct (Toot.get_client services) as [e1|client].
  { intros [= ->]. destruct e; cbn; split; try reflexivity. repeat constructor. }
  destruct (Toot.mastodon_toot services (Toot.set_access_token client token) message)
    as [e1|[]]; [| discriminate].
  intros [= ->]. destruct e; cbn; split; try reflexivity. repeat constructor.
Qed.

Lemma toot_failure_reported_by_class_witness :
  last (fst (Toot.toot Toot.unknown_user "alice" "hello"))
    = Some (Toot.LoggerError "Error: no such user: alice") /\
  last (fst (Toot.toot Toot.server_down "alice" "hello"))
    = Some (Toot.LoggerException "An unexpected error occurred: connection refused").
Proof.
  split.
  - apply (toot_failure_reported_by_class Toot.unknown_user "alice" "hello"
             (Toot.ValueError "no such user: alice")). reflexivity.
  - apply (toot_failure_reported_by_class Toot.server_down "alice" "hello"
             (Toot.OtherException "connection refused")). reflexivity.
Defined.
